(** * Voting and score consistency of the discussion backend

    A shallow embedding of the vote ledger ([models/Vote.js]), the vote
    routes ([POST /api/posts/:id/vote], [POST /api/comments/:id/vote]),
    the delete routes and [userSchema.methods.updateKarma]
    ([models/User.js]), followed by the properties of the voting core. *)

From stdpp Require Import base numbers option list gmap strings.
From Stdlib Require Import ZArith Lia Ascii.

Local Open Scope Z_scope.

(** ** Documents and collections *)

(** An ObjectId is a 12-byte value; the collections are keyed by it. *)
Definition ObjectId := N.

(** [targetType] of a vote: the [enum: ['Post', 'Comment']] of the schema. *)
Inductive TargetType := PostT | CommentT.

#[global] Instance TargetType_eq_dec : EqDecision TargetType.
Proof. solve_decision. Defined.

(** The fields of a post the voting core touches ([models/Post.js]). *)
Record Post := mkPost {
  post_author : ObjectId;
  post_upvotes : Z;
  post_downvotes : Z
}.

(** The fields of a comment the voting core touches. *)
Record Comment := mkComment {
  comment_author : ObjectId;
  comment_post : ObjectId;
  comment_upvotes : Z;
  comment_downvotes : Z
}.

(** A document of the [Vote] collection ([models/Vote.js]). *)
Record Vote := mkVote {
  vote_user : ObjectId;
  vote_targetType : TargetType;
  vote_target : ObjectId;
  vote_value : Z
}.

Record User := mkUser { user_karma : Z }.

(** The database. The [Vote] collection is a list of documents: a position
    in the list stands for the document's [_id], so that two documents with
    the same (user, targetType, target) are representable and the unique
    index is a property to establish, not a consequence of the encoding. *)
Record Store := mkStore {
  posts : gmap ObjectId Post;
  comments : gmap ObjectId Comment;
  votes : list Vote;
  users : gmap ObjectId User
}.

#[global] Instance Post_eq_dec : EqDecision Post.
Proof. solve_decision. Defined.
#[global] Instance Comment_eq_dec : EqDecision Comment.
Proof. solve_decision. Defined.
#[global] Instance Vote_eq_dec : EqDecision Vote.
Proof. solve_decision. Defined.
#[global] Instance User_eq_dec : EqDecision User.
Proof. solve_decision. Defined.

Definition emptyStore : Store := mkStore ∅ ∅ [] ∅.

(** The in-memory document a vote route works on: the author and the two
    counters of the post or comment returned by [findById]. *)
Record Doc := mkDoc {
  doc_author : ObjectId;
  doc_upvotes : Z;
  doc_downvotes : Z
}.

#[global] Instance Doc_eq_dec : EqDecision Doc.
Proof. solve_decision. Defined.

Definition docOfPost (p : Post) : Doc :=
  mkDoc (post_author p) (post_upvotes p) (post_downvotes p).

Definition docOfComment (c : Comment) : Doc :=
  mkDoc (comment_author c) (comment_upvotes c) (comment_downvotes c).

(** [Model.findById] on an id that is already an ObjectId. *)
Definition findTarget (kind : TargetType) (db : Store) (id : ObjectId)
  : option Doc :=
  match kind with
  | PostT => docOfPost <$> posts db !! id
  | CommentT => docOfComment <$> comments db !! id
  end.

(** ** Values of a JSON request body *)

(** [req.body.value] as the JSON parser delivers it. Numbers are carried by
    their integer value; [JUndefined] is a body without the field. *)
Inductive jsval :=
| JUndefined
| JNull
| JBool (b : bool)
| JNum (z : Z)
| JStr (s : string).

(** [value === n] for a numeric literal [n]: no coercion. *)
Definition strictEqNum (v : jsval) (n : Z) : bool :=
  match v with
  | JNum z => bool_decide (z = n)
  | _ => false
  end.

(** The key of the unique index
    [voteSchema.index({ user: 1, targetType: 1, target: 1 }, { unique: true })]. *)
Definition VoteKey : Type := ObjectId * TargetType * ObjectId.

Definition voteKey (v : Vote) : VoteKey :=
  (vote_user v, vote_targetType v, vote_target v).

(** [Vote.findOne({ user, targetType, target })]: the first matching document,
    with its position. *)
Definition Vote_findOne (k : VoteKey) (l : list Vote) : option (nat * Vote) :=
  list_find (λ v, voteKey v = k) l.

#[global] Arguments Vote_findOne : simpl never.

(** [Vote.deleteMany({ targetType, target })]. *)
Definition Vote_deleteMany (kind : TargetType) (id : ObjectId) (l : list Vote)
  : list Vote :=
  filter (λ v, ¬ (vote_targetType v = kind ∧ vote_target v = id)) l.

(** [Comment.deleteMany({ post })]. *)
Definition Comment_deleteMany (pid : ObjectId) (m : gmap ObjectId Comment)
  : gmap ObjectId Comment :=
  filter (λ kv, comment_post kv.2 ≠ pid) m.

(** ** Storage operations, failures and the log *)

(** The awaited calls of the routes, in the order of the source. *)
Inductive Op :=
| TargetFindById
| StartSession
| VoteFindOne
| VoteDeleteOne
| VoteSave
| TargetSave
| UserFindById
| PostAggregate
| CommentAggregate
| UserSave
| CommitTransaction
| AbortTransaction
| TargetDeleteOne
| CommentDeleteMany
| VoteDeleteMany.

#[global] Instance Op_eq_dec : EqDecision Op.
Proof. solve_decision. Defined.

(** Which awaited call is rejected by the storage layer in a request (a
    network error, a write conflict, a serialization failure). *)
Definition Faults := Op → bool.

Definition noFaults : Faults := λ _, false.

Definition failAt (o : Op) : Faults := λ o', bool_decide (o' = o).

(** What a request sees: the committed database, the working copy of an
    open transaction (reads and writes that carry the session go there),
    and the log of the awaited calls made so far. *)
Record World := mkWorld {
  w_db : Store;
  w_session : option Store;
  w_log : list Op
}.

(** The errors the routes can meet. [CastError] is Mongoose's error of
    kind ['ObjectId'], the one the [error.kind === 'ObjectId'] tests of the
    routes look for. *)
Inductive Error :=
| CastError
| ValidationError
| DuplicateKey
| DocumentNotFound
| StorageError.

#[global] Instance Error_eq_dec : EqDecision Error.
Proof. solve_decision. Defined.

(** A computation that returns or throws, threading the world. *)
Inductive Result (A : Type) :=
| Ret (a : A) (w : World)
| Throw (e : Error) (w : World).
Arguments Ret {A} a w.
Arguments Throw {A} e w.

Definition M (A : Type) : Type := World → Result A.

#[global] Instance M_ret : MRet M := λ A a w, Ret a w.
#[global] Instance M_bind : MBind M := λ A B f m w,
  match m w with
  | Ret a w' => f a w'
  | Throw e w' => Throw e w'
  end.

Definition throw {A} (e : Error) : M A := λ w, Throw e w.

(** [await] of a storage call: it is logged, and throws when the storage
    layer rejects it. *)
Definition await (flt : Faults) (o : Op) : M unit := λ w,
  let w' := mkWorld (w_db w) (w_session w) (w_log w ++ [o]) in
  if flt o then Throw StorageError w' else Ret () w'.

(** [await Promise.all([...])] of reads: every call is issued, and the
    whole rejects when one of them does. *)
Definition awaitAll (flt : Faults) (ops : list Op) : M unit := λ w,
  let w' := mkWorld (w_db w) (w_session w) (w_log w ++ ops) in
  if forallb (λ o, negb (flt o)) ops then Ret () w'
  else Throw StorageError w'.

(** [await Model.findById(id)]: Mongoose casts the id when the query is
    executed, before it calls the driver. An id that is no ObjectId makes
    the awaited call reject with the cast error whatever the state of the
    storage layer; otherwise the call goes to the storage layer, which can
    fail it. [cast] is the result of the cast. *)
Definition findByIdCall (flt : Faults) (cast : option ObjectId)
    : M ObjectId := λ w,
  let w' := mkWorld (w_db w) (w_session w) (w_log w ++ [TargetFindById]) in
  match cast with
  | None => Throw CastError w'
  | Some id => if flt TargetFindById then Throw StorageError w' else Ret id w'
  end.

Definition getDb : M Store := λ w, Ret (w_db w) w.

Definition putDb (db : Store) : M unit := λ w,
  Ret () (mkWorld db (w_session w) (w_log w)).

(** The view of a read made with [.session(session)]. *)
Definition getSession : M Store := λ w,
  match w_session w with
  | Some s => Ret s w
  | None => Throw StorageError w
  end.

Definition putSession (s : Store) : M unit := λ w,
  Ret () (mkWorld (w_db w) (Some s) (w_log w)).

(** [try { body } catch (error) { handler }]. *)
Definition tryCatch {A} (body : M A) (handler : Error → M A) : M A := λ w,
  match body w with
  | Ret a w' => Ret a w'
  | Throw e w' => handler e w'
  end.

(** [session.startTransaction()]: the transaction works on a copy of the
    committed database. *)
Definition startTransaction : M unit := λ w,
  Ret () (mkWorld (w_db w) (Some (w_db w)) (w_log w)).

(** [session.commitTransaction()]: the writes of the session (votes, posts,
    comments) become the committed ones. The [users] collection is never
    written through the session, so it keeps its committed value. *)
Definition commitTransaction : M unit := λ w,
  match w_session w with
  | Some s =>
      Ret () (mkWorld (mkStore (posts s) (comments s) (votes s) (users (w_db w)))
                      None (w_log w))
  | None => Throw StorageError w
  end.

(** [session.abortTransaction()]: the working copy is dropped. *)
Definition abortTransaction : M unit := λ w,
  Ret () (mkWorld (w_db w) None (w_log w ++ [AbortTransaction])).

(** ** Karma recalculation ([userSchema.methods.updateKarma]) *)

(** The pipeline [$match: { author }], [$project: { karma: upvotes -
    downvotes }], [$group: { _id: null, total: { $sum: '$karma' } }]. The
    result has one document holding [total], or none when nothing matched. *)
Definition aggregateKarma {D} (author : D → ObjectId) (up down : D → Z)
    (uid : ObjectId) (coll : gmap ObjectId D) : list Z :=
  let matched := filter (λ d, author d = uid) (map_to_list coll).*2 in
  let projected := (λ d, up d - down d) <$> matched in
  match projected with
  | [] => []
  | _ :: _ => [foldr Z.add 0 projected]
  end.

Definition setKarma (u : User) (k : Z) : User := mkUser k.

(** [this] is the user document with [_id = uid]. The two aggregations and
    [this.save()] carry no session: they read and write the committed
    database. *)
Definition updateKarma (flt : Faults) (uid : ObjectId) (this : User) : M Z :=
  awaitAll flt [PostAggregate; CommentAggregate];;
  db ← getDb;
  let postKarma :=
    aggregateKarma post_author post_upvotes post_downvotes uid (posts db) in
  let commentKarma :=
    aggregateKarma comment_author comment_upvotes comment_downvotes uid
                   (comments db) in
  let karma :=
    (match postKarma with t :: _ => t | [] => 0 end) +
    (match commentKarma with t :: _ => t | [] => 0 end) in
  await flt UserSave;;
  match users db !! uid with
  | None => throw DocumentNotFound
  | Some _ =>
      putDb (mkStore (posts db) (comments db) (votes db)
                     (<[uid := setKarma this karma]> (users db)));;
      mret karma
  end.

(** ** Responses *)

Record Response := mkResponse {
  status : Z;
  message : string;
  payload : option Doc
}.

Definition reply (code : Z) (msg : string) : Response :=
  mkResponse code msg None.

Definition notFoundMessage (kind : TargetType) : string :=
  match kind with
  | PostT => "Post not found"
  | CommentT => "Comment not found"
  end.

(** A vote request: the authenticated [req.user._id], the route parameter
    [req.params.id] and [req.body.value]. *)
Record VoteRequest := mkVoteRequest {
  rq_user : ObjectId;
  rq_id : string;
  rq_value : jsval
}.

Definition setVotes (s : Store) (l : list Vote) : Store :=
  mkStore (posts s) (comments s) l (users s).

Definition setValue (v : Vote) (z : Z) : Vote :=
  mkVote (vote_user v) (vote_targetType v) (vote_target v) z.

Definition setUpvotes (d : Doc) (n : Z) : Doc :=
  mkDoc (doc_author d) n (doc_downvotes d).

Definition setDownvotes (d : Doc) (n : Z) : Doc :=
  mkDoc (doc_author d) (doc_upvotes d) n.

(** [doc.save({ session })] of a loaded post or comment: Mongoose sends a
    [$set] of the paths whose value differs from the loaded one; when there
    is none it only checks that the document still exists. Either way it
    throws when the document is gone. *)
Definition saveTarget (kind : TargetType) (id : ObjectId)
    (loaded current : Doc) : M unit :=
  s ← getSession;
  let up (old : Z) :=
    if decide (doc_upvotes loaded = doc_upvotes current)
    then old else doc_upvotes current in
  let down (old : Z) :=
    if decide (doc_downvotes loaded = doc_downvotes current)
    then old else doc_downvotes current in
  match kind with
  | PostT =>
      match posts s !! id with
      | None => throw DocumentNotFound
      | Some p =>
          if decide (loaded = current) then mret ()
          else
            let p' := mkPost (post_author p) (up (post_upvotes p))
                             (down (post_downvotes p)) in
            putSession (mkStore (<[id := p']> (posts s)) (comments s)
                                (votes s) (users s))
      end
  | CommentT =>
      match comments s !! id with
      | None => throw DocumentNotFound
      | Some c =>
          if decide (loaded = current) then mret ()
          else
            let c' := mkComment (comment_author c) (comment_post c)
                                (up (comment_upvotes c))
                                (down (comment_downvotes c)) in
            putSession (mkStore (posts s) (<[id := c']> (comments s))
                                (votes s) (users s))
      end
  end.

Section Runtime.

(** Two primitives of the platform the routes rely on, taken as
    parameters: the conversion of a string to a Number by JavaScript's
    [Number(...)] ([None] stands for a result that is not an integer: NaN,
    a fraction, an infinity), and Mongoose's cast of a route parameter to
    an ObjectId ([None] when the cast throws). *)
Variable StringToNumber : string → option Z.
Variable castObjectId : string → option ObjectId.

(** [Number(value)]. *)
Definition ToNumber (v : jsval) : option Z :=
  match v with
  | JUndefined => None
  | JNull => Some 0
  | JBool b => Some (if b then 1 else 0)
  | JNum z => Some z
  | JStr s => StringToNumber s
  end.

(** [[1, 0, -1].includes(Number(value))]. *)
Definition validVoteValue (v : jsval) : bool :=
  match ToNumber v with
  | Some z => bool_decide (z ∈ [1; 0; -1])
  | None => false
  end.

(** What Mongoose makes of a value assigned to a path of type [Number]:
    [null] and [undefined] are kept ([Some None]), the empty string becomes
    [null], other strings and booleans go through [Number(...)], and a
    string that is not numeric is a cast error ([None]). *)
Definition castNumber (v : jsval) : option (option Z) :=
  match v with
  | JUndefined | JNull => Some None
  | JBool b => Some (Some (if b then 1 else 0))
  | JNum z => Some (Some z)
  | JStr s =>
      if decide (s = "") then Some None
      else match StringToNumber s with
           | Some z => Some (Some z)
           | None => None
           end
  end.

(** The validators of the [value] path of [voteSchema]:
    [required: true] and [enum: [-1, 0, 1]]. *)
Definition validateVoteValue (v : jsval) : option Z :=
  match castNumber v with
  | Some (Some z) => if bool_decide (z ∈ [-1; 0; 1]) then Some z else None
  | _ => None
  end.

(** [vote.value = value; await vote.save({ session })] on the document
    found at position [i]. *)
Definition Vote_saveExisting (flt : Faults) (i : nat) (v : Vote)
    (value : jsval) : M unit :=
  await flt VoteSave;;
  match validateVoteValue value with
  | None => throw ValidationError
  | Some z =>
      s ← getSession;
      putSession (setVotes s (<[i := setValue v z]> (votes s)))
  end.

(** [vote = new Vote({ user, targetType, target, value });
    await vote.save({ session })]: the insert is refused by the unique
    index when a document with the same key exists. *)
Definition Vote_saveNew (flt : Faults) (k : VoteKey) (value : jsval)
    : M unit :=
  await flt VoteSave;;
  match validateVoteValue value with
  | None => throw ValidationError
  | Some z =>
      s ← getSession;
      match Vote_findOne k (votes s) with
      | Some _ => throw DuplicateKey
      | None => putSession (setVotes s (votes s ++ [mkVote k.1.1 k.1.2 k.2 z]))
      end
  end.

(** The [if (value === 0) { ... } else { ... }] block of a vote route:
    the write to the ledger and the new counters of the in-memory document
    [post]. [s] is the view of the session and [vote] what [findOne]
    returned. *)
Definition reconcile (flt : Faults) (k : VoteKey) (value : jsval)
    (post : Doc) (s : Store) (vote : option (nat * Vote)) : M Doc :=
  let previousValue :=
    match vote with Some (_, v) => vote_value v | None => 0 end in
  if strictEqNum value 0 then
    match vote with
    | Some (i, _) =>
        await flt VoteDeleteOne;;
        putSession (setVotes s (delete i (votes s)));;
        mret (if bool_decide (previousValue = 1) then
                setUpvotes post (Z.max 0 (doc_upvotes post - 1))
              else if bool_decide (previousValue = -1) then
                setDownvotes post (Z.max 0 (doc_downvotes post - 1))
              else post)
    | None => mret post
    end
  else
    match vote with
    | Some (i, v) =>
        Vote_saveExisting flt i v value;;
        mret (if bool_decide (previousValue = 1) && strictEqNum value (-1)
              then
                let post1 :=
                  setUpvotes post (Z.max 0 (doc_upvotes post - 1)) in
                setDownvotes post1 (doc_downvotes post1 + 1)
              else if bool_decide (previousValue = -1) && strictEqNum value 1
              then
                let post1 :=
                  setDownvotes post (Z.max 0 (doc_downvotes post - 1)) in
                setUpvotes post1 (doc_upvotes post1 + 1)
              else post)
    | None =>
        Vote_saveNew flt k value;;
        mret (if strictEqNum value 1 then
                setUpvotes post (doc_upvotes post + 1)
              else if strictEqNum value (-1) then
                setDownvotes post (doc_downvotes post + 1)
              else post)
    end.

(** The end of the inner [try]: the target is saved through the session,
    the karma of its author is recalculated, the transaction is
    committed. [loaded] is the document as [findById] returned it and
    [post] the same document with its new counters. *)
Definition settle (flt : Faults) (kind : TargetType) (id : ObjectId)
    (loaded post : Doc) : M unit :=
  await flt TargetSave;;
  saveTarget kind id loaded post;;
  await flt UserFindById;;
  db ← getDb;
  match users db !! doc_author post with
  | Some author => updateKarma flt (doc_author post) author;; mret ()
  | None => mret ()
  end;;
  await flt CommitTransaction;;
  commitTransaction.

(** The body of the inner [try] of a vote route; [post] is the document
    loaded by [findById] before the transaction started. The result is the
    in-memory document sent back to the client. *)
Definition voteTransaction (flt : Faults) (kind : TargetType)
    (uid id : ObjectId) (value : jsval) (post : Doc) : M Doc :=
  await flt VoteFindOne;;
  s ← getSession;
  let vote := Vote_findOne (uid, kind, id) (votes s) in
  post' ← reconcile flt (uid, kind, id) value post s vote;
  settle flt kind id post post';;
  mret post'.

(** The part of a vote route that runs once the target is loaded: the
    session is opened, the transaction body runs, and an error aborts the
    transaction and is thrown again. *)
Definition voteInSession (flt : Faults) (kind : TargetType)
    (uid id : ObjectId) (value : jsval) (post : Doc) : M Response :=
  await flt StartSession;;
  startTransaction;;
  tryCatch
    (post' ← voteTransaction flt kind uid id value post;
     mret (mkResponse 200 "Vote recorded" (Some post')))
    (λ error, abortTransaction;; throw error).

(** The part of a vote route that runs before the session is opened: the
    validation of [value] and [findById]. [inl] is a response sent at once,
    [inr] the loaded target. *)
Definition voteLoad (flt : Faults) (kind : TargetType) (rq : VoteRequest)
    : M (Response + ObjectId * Doc) :=
  if negb (validVoteValue (rq_value rq)) then
    mret (inl (reply 400 "Invalid vote value"))
  else
    id ← findByIdCall flt (castObjectId (rq_id rq));
    db ← getDb;
    match findTarget kind db id with
    | None => mret (inl (reply 404 (notFoundMessage kind)))
    | Some post => mret (inr (id, post))
    end.

(** [router.post('/:id/vote', protect, ...)] of [routes/posts.js]
    ([kind = PostT]) and of [routes/comments.js] ([kind = CommentT]); the
    two handlers differ only in the model they name. *)
Definition voteRoute (flt : Faults) (kind : TargetType) (rq : VoteRequest)
    : M Response :=
  tryCatch
    (loaded ← voteLoad flt kind rq;
     match loaded with
     | inl response => mret response
     | inr (id, post) =>
         voteInSession flt kind (rq_user rq) id (rq_value rq) post
     end)
    (λ _, mret (reply 500 "Server error")).

Definition votePost (flt : Faults) := voteRoute flt PostT.
Definition voteComment (flt : Faults) := voteRoute flt CommentT.

End Runtime.

(** ** The delete routes *)

(** [await Promise.all([...])] of calls that carry no session: every call
    is issued, each one that the storage layer accepts takes effect on the
    committed database, and the whole rejects when one of them does. *)
Definition promiseAll (flt : Faults) (calls : list (Op * (Store → Store)))
    : M unit := λ w,
  let db' := foldl (λ db c, if flt c.1 then db else c.2 db) (w_db w) calls in
  let w' := mkWorld db' (w_session w) (w_log w ++ calls.*1) in
  if forallb (λ c, negb (flt c.1)) calls then Ret () w'
  else Throw StorageError w'.

Definition Post_deleteOne (id : ObjectId) (db : Store) : Store :=
  mkStore (delete id (posts db)) (comments db) (votes db) (users db).

Definition Comment_deleteOne (id : ObjectId) (db : Store) : Store :=
  mkStore (posts db) (delete id (comments db)) (votes db) (users db).

Definition deleteCommentsOf (pid : ObjectId) (db : Store) : Store :=
  mkStore (posts db) (Comment_deleteMany pid (comments db)) (votes db)
          (users db).

Definition deleteVotesOf (kind : TargetType) (id : ObjectId) (db : Store)
    : Store :=
  mkStore (posts db) (comments db) (Vote_deleteMany kind id (votes db))
          (users db).

(** The [catch] of the delete routes: 404 for an error of kind
    ['ObjectId'], 500 otherwise. *)
Definition deleteCatch (kind : TargetType) (error : Error) : M Response :=
  if decide (error = CastError) then mret (reply 404 (notFoundMessage kind))
  else mret (reply 500 "Server error").

Section DeleteRoutes.

Variable castObjectId : string → option ObjectId.

(** [router.delete('/:id', protect, ...)] of [routes/posts.js]. *)
Definition deletePost (flt : Faults) (uid : ObjectId) (idParam : string)
    : M Response :=
  tryCatch
    (id ← findByIdCall flt (castObjectId idParam);
     db ← getDb;
     match posts db !! id with
     | None => mret (reply 404 "Post not found")
     | Some post =>
         if negb (bool_decide (post_author post = uid)) then
           mret (reply 403 "Not authorized to delete this post")
         else
           promiseAll flt [ (TargetDeleteOne, Post_deleteOne id);
                            (CommentDeleteMany, deleteCommentsOf id);
                            (VoteDeleteMany, deleteVotesOf PostT id) ];;
           mret (reply 200 "Post removed")
     end)
    (deleteCatch PostT).

(** [router.delete('/:id', protect, ...)] of [routes/comments.js]. *)
Definition deleteComment (flt : Faults) (uid : ObjectId) (idParam : string)
    : M Response :=
  tryCatch
    (id ← findByIdCall flt (castObjectId idParam);
     db ← getDb;
     match comments db !! id with
     | None => mret (reply 404 "Comment not found")
     | Some comment =>
         if negb (bool_decide (comment_author comment = uid)) then
           mret (reply 403 "Not authorized to delete this comment")
         else
           promiseAll flt [ (TargetDeleteOne, Comment_deleteOne id);
                            (VoteDeleteMany, deleteVotesOf CommentT id) ];;
           mret (reply 200 "Comment removed")
     end)
    (deleteCatch CommentT).

End DeleteRoutes.

(** ** Serving a request *)

(** What a request leaves behind: the response (none when the handler
    threw), the committed database and the log of its awaited calls. *)
Record Outcome := mkOutcome {
  out_response : option Response;
  out_db : Store;
  out_log : list Op
}.

(** A handler run on the database, [log] being the awaited calls the
    request has already made. *)
Definition serveFrom (log : list Op) (handler : M Response) (db : Store)
    : Outcome :=
  match handler (mkWorld db None log) with
  | Ret r w => mkOutcome (Some r) (w_db w) (w_log w)
  | Throw _ w => mkOutcome None (w_db w) (w_log w)
  end.

Definition serve : M Response → Store → Outcome := serveFrom [].

Definition out_status (o : Outcome) : option Z := status <$> out_response o.

(** ** Interleaved requests *)

(** A vote request in flight. It suspends at its awaited calls; the two
    stretches kept apart here are the one up to [findById] and the
    transaction, each run without interruption. Every run of these
    stretches is a run of the server: one in which no transaction overlaps
    another. Requests whose transactions overlap are those of [Flight],
    further down. *)
Inductive Pending :=
| Waiting (rq : VoteRequest)
| Loaded (rq : VoteRequest) (id : ObjectId) (post : Doc) (log : list Op)
| Done (response : option Response).

Section Interleaving.

Variable StringToNumber : string → option Z.
Variable castObjectId : string → option ObjectId.
Variable flt : Faults.
Variable kind : TargetType.

Definition serverError : Error → M Response :=
  λ _, mret (reply 500 "Server error").

(** One stretch of a request on the current database. *)
Definition advance (p : Pending) (db : Store) : Pending * Store :=
  match p with
  | Waiting rq =>
      match voteLoad StringToNumber castObjectId flt kind rq
                     (mkWorld db None []) with
      | Ret (inl response) w => (Done (Some response), w_db w)
      | Ret (inr (id, post)) w => (Loaded rq id post (w_log w), w_db w)
      | Throw e w =>
          let o := serveFrom (w_log w) (serverError e) (w_db w) in
          (Done (out_response o), out_db o)
      end
  | Loaded rq id post log =>
      let o :=
        serveFrom log
          (tryCatch (voteInSession StringToNumber flt kind (rq_user rq)
                                   id (rq_value rq) post)
                    serverError) db in
      (Done (out_response o), out_db o)
  | Done r => (Done r, db)
  end.

(** A schedule names, step after step, the request that runs its next
    stretch. *)
Fixpoint runSchedule (schedule : list nat) (ps : list Pending) (db : Store)
    : list Pending * Store :=
  match schedule with
  | [] => (ps, db)
  | i :: rest =>
      match ps !! i with
      | None => runSchedule rest ps db
      | Some p =>
          let '(p', db') := advance p db in
          runSchedule rest (<[i := p']> ps) db'
      end
  end.

Definition succeeded (p : Pending) : bool :=
  match p with
  | Done (Some r) => bool_decide (status r = 200)
  | _ => false
  end.

End Interleaving.

(** ** Overlapping transactions *)

(** A vote request in flight, with a stop wherever another request can
    change what this one has read: after [findById], and after the
    [findOne] of its transaction. [read] is the value of the record that
    [findOne] returned, when it returned one.

    A transaction reads the ledger as it is at its [findOne]. Its writes
    stay invisible to the other requests until it commits, so the stretch
    from the first write to the commit is run at the commit: it is there
    that the writes meet the committed data, which other transactions may
    have changed since the read. A record read earlier is written where the
    ledger now holds its key, and the write is refused when the key is gone;
    an insert is checked by the unique index against the ledger as it is
    now. Whatever else the storage layer refuses between overlapping
    transactions is a storage failure, which [flt] stands for. *)
Inductive Flight :=
| Arrived (rq : VoteRequest)
| Fetched (rq : VoteRequest) (id : ObjectId) (post : Doc) (log : list Op)
| Reading (rq : VoteRequest) (id : ObjectId) (post : Doc)
          (read : option Z) (log : list Op)
| Answered (response : option Response).

Section Overlap.

Variable StringToNumber : string → option Z.
Variable castObjectId : string → option ObjectId.
Variable flt : Faults.
Variable kind : TargetType.

(** From [startSession] to the answer of [findOne]. *)
Definition voteRead (uid id : ObjectId) : M (option Z) :=
  await flt StartSession;;
  startTransaction;;
  tryCatch
    (await flt VoteFindOne;;
     s ← getSession;
     mret (vote_value ∘ snd <$> Vote_findOne (uid, kind, id) (votes s)))
    (λ error, abortTransaction;; throw error).

(** The document that [findOne] returned, where the ledger holds it now. *)
Definition locateVote (k : VoteKey) (read : option Z)
    : M (option (nat * Vote)) :=
  match read with
  | None => mret None
  | Some z =>
      s ← getSession;
      match Vote_findOne k (votes s) with
      | Some (i, _) => mret (Some (i, mkVote k.1.1 k.1.2 k.2 z))
      | None => throw StorageError
      end
  end.

(** The rest of the inner [try], from the first write to the commit. *)
Definition voteWrite (uid id : ObjectId) (value : jsval) (post : Doc)
    (read : option Z) : M Response :=
  tryCatch
    (vote ← locateVote (uid, kind, id) read;
     s ← getSession;
     post' ← reconcile StringToNumber flt (uid, kind, id) value post s vote;
     settle flt kind id post post';;
     mret (mkResponse 200 "Vote recorded" (Some post')))
    (λ error, abortTransaction;; throw error).

(** One stretch of a request in flight, on the committed database. *)
Definition progress (f : Flight) (db : Store) : Flight * Store :=
  match f with
  | Arrived rq =>
      match voteLoad StringToNumber castObjectId flt kind rq
                     (mkWorld db None []) with
      | Ret (inl response) w => (Answered (Some response), w_db w)
      | Ret (inr (id, post)) w => (Fetched rq id post (w_log w), w_db w)
      | Throw e w =>
          let o := serveFrom (w_log w) (serverError e) (w_db w) in
          (Answered (out_response o), out_db o)
      end
  | Fetched rq id post log =>
      match voteRead (rq_user rq) id (mkWorld db None log) with
      | Ret read w => (Reading rq id post read (w_log w), w_db w)
      | Throw e w =>
          let o := serveFrom (w_log w) (serverError e) (w_db w) in
          (Answered (out_response o), out_db o)
      end
  | Reading rq id post read log =>
      match tryCatch (voteWrite (rq_user rq) id (rq_value rq) post read)
                     serverError (mkWorld db (Some db) log) with
      | Ret response w => (Answered (Some response), w_db w)
      | Throw _ w => (Answered None, w_db w)
      end
  | Answered r => (Answered r, db)
  end.

(** The requests of a list take their stretches in the order of a
    schedule. *)
Fixpoint runFlights (schedule : list nat) (fs : list Flight) (db : Store)
    : list Flight * Store :=
  match schedule with
  | [] => (fs, db)
  | i :: rest =>
      match fs !! i with
      | None => runFlights rest fs db
      | Some f =>
          let '(f', db') := progress f db in
          runFlights rest (<[i := f']> fs) db'
      end
  end.

End Overlap.

(** ** Instances of the two platform primitives *)

Definition digitValue (a : ascii) : option Z :=
  let n := Z.of_nat (nat_of_ascii a) in
  if bool_decide (48 ≤ n ≤ 57) then Some (n - 48) else None.

Fixpoint digitsValue (s : string) (acc : Z) : option Z :=
  match s with
  | EmptyString => Some acc
  | String a rest =>
      match digitValue a with
      | Some d => digitsValue rest (10 * acc + d)
      | None => None
      end
  end.

(** [Number(s)] on the strings made of an optional sign and decimal digits,
    and on the empty string, which converts to 0. *)
Definition decimalToNumber (s : string) : option Z :=
  match s with
  | EmptyString => Some 0
  | String "-"%char (String _ _ as digits) => Z.opp <$> digitsValue digits 0
  | String "+"%char (String _ _ as digits) => digitsValue digits 0
  | _ => digitsValue s 0
  end.

Definition hexValue (a : ascii) : option N :=
  let n := N.of_nat (nat_of_ascii a) in
  if bool_decide (48 ≤ n ≤ 57)%N then Some (n - 48)%N
  else if bool_decide (97 ≤ n ≤ 102)%N then Some (n - 87)%N
  else if bool_decide (65 ≤ n ≤ 70)%N then Some (n - 55)%N
  else None.

Fixpoint hexDigits (s : string) (acc : N) : option N :=
  match s with
  | EmptyString => Some acc
  | String a rest =>
      match hexValue a with
      | Some d => hexDigits rest (16 * acc + d)%N
      | None => None
      end
  end.

(** The cast of a string of 24 hexadecimal digits, the form in which the
    server prints an ObjectId; every other string is refused here. *)
Definition hexObjectId (s : string) : option ObjectId :=
  if bool_decide (String.length s = 24%nat) then hexDigits s 0%N else None.

(** ** The transition table of the vote reconciler, as the specification
    words it *)

Inductive LedgerAction :=
| ActCreate (z : Z)
| ActDelete
| ActUpdate (z : Z)
| ActNoOp.

(** One row of the table: ledger action, upvotes delta, downvotes delta,
    for a previous and a requested value in {-1, 0, +1}. *)
Definition specTransition (previous requested : Z) : LedgerAction * Z * Z :=
  if bool_decide (previous = requested) then (ActNoOp, 0, 0)
  else if bool_decide (previous = 0) then
    if bool_decide (requested = 1) then (ActCreate 1, 1, 0)
    else (ActCreate (-1), 0, 1)
  else if bool_decide (requested = 0) then
    if bool_decide (previous = 1) then (ActDelete, -1, 0)
    else (ActDelete, 0, -1)
  else if bool_decide (previous = 1) then (ActUpdate (-1), -1, 1)
  else (ActUpdate 1, 1, -1).

(** A counter after a delta: a decrement is clamped at zero. *)
Definition applyDelta (counter delta : Z) : Z :=
  if bool_decide (delta < 0) then Z.max 0 (counter + delta)
  else counter + delta.

(** A ledger action on the record of key [k]. *)
Definition applyAction (a : LedgerAction) (k : VoteKey) (l : list Vote)
    : list Vote :=
  match a with
  | ActNoOp => l
  | ActCreate z => l ++ [mkVote k.1.1 k.1.2 k.2 z]
  | ActUpdate z =>
      match Vote_findOne k l with
      | Some (i, _) => <[i := mkVote k.1.1 k.1.2 k.2 z]> l
      | None => l
      end
  | ActDelete =>
      match Vote_findOne k l with
      | Some (i, _) => delete i l
      | None => l
      end
  end.

(** The ledger value of a key as the specification reads it: the value of
    its record, which is not 0, or 0 when the key has no record. A ledger
    that holds a record of value 0 for the key has no value in this sense;
    what the route reads there is [vote ? vote.value : 0] ([userVoteOf]). *)
Definition currentVote (k : VoteKey) (l : list Vote) (previous : Z) : Prop :=
  match Vote_findOne k l with
  | Some (_, v) => vote_value v = previous ∧ previous ≠ 0
  | None => previous = 0
  end.

(** ** Invariants of the ledger *)

(** Uniqueness: no two documents of the ledger share a key. *)
Definition uniqueVotes (l : list Vote) : Prop := NoDup (voteKey <$> l).

(** Every stored value is -1 or +1. *)
Definition signedVotes (l : list Vote) : Prop :=
  Forall (λ v, vote_value v = 1 ∨ vote_value v = -1) l.

(** The karma of a user as the specification defines it: the sum, over the
    posts and the comments the user wrote, of upvotes minus downvotes. *)
Definition specKarma (db : Store) (uid : ObjectId) : Z :=
  map_fold (λ _ p acc,
              if decide (post_author p = uid)
              then acc + (post_upvotes p - post_downvotes p) else acc)
           0 (posts db)
  + map_fold (λ _ c acc,
                if decide (comment_author c = uid)
                then acc + (comment_upvotes c - comment_downvotes c) else acc)
             0 (comments db).

(** The effect of [updateKarma] on the committed database. *)
Definition withKarma (db : Store) (uid : ObjectId) (this : User) (k : Z)
    : Store :=
  mkStore (posts db) (comments db) (votes db)
          (<[uid := setKarma this k]> (users db)).

(** The world a computation ends in, returned or thrown. *)
Definition resultWorld {A} (r : Result A) : World :=
  match r with
  | Ret _ w => w
  | Throw _ w => w
  end.

(** ** Reachable states *)

Section Events.

Variable StringToNumber : string → option Z.
Variable castObjectId : string → option ObjectId.

(** One event of the server: a vote request served in one go; one stretch
    of a vote request interleaved with others, its transaction run in one
    go ([advance]) or overlapping other transactions ([progress]), whatever
    the request has read so far; a delete request; or any other route, none
    of which writes the [Vote] collection. *)
Inductive step : Store → Store → Prop :=
| step_vote flt kind rq db :
    step db (out_db (serve (voteRoute StringToNumber castObjectId flt kind rq) db))
| step_stretch flt kind p db :
    step db (advance StringToNumber castObjectId flt kind p db).2
| step_flight flt kind f db :
    step db (progress StringToNumber castObjectId flt kind f db).2
| step_deletePost flt uid idParam db :
    step db (out_db (serve (deletePost castObjectId flt uid idParam) db))
| step_deleteComment flt uid idParam db :
    step db (out_db (serve (deleteComment castObjectId flt uid idParam) db))
| step_other db db' :
    votes db' = votes db → step db db'.

Definition reachable : Store → Prop := rtc step emptyStore.

End Events.

(** ** Storage failures *)

(** The awaited calls of the karma recalculation, and those that write
    through the transaction. *)
Definition karmaOps : list Op := [PostAggregate; CommentAggregate; UserSave].

Definition writeOps : list Op :=
  [VoteDeleteOne; VoteSave; TargetSave; CommitTransaction].

(** A request whose log shows a second read of the ledger has run its
    read-compute-write sequence again. *)
Definition retried (log : list Op) : Prop :=
  (2 ≤ length (filter (λ x, x = VoteFindOne) log))%nat.

(** ** A small database *)

Definition alice : ObjectId := 5%N.
Definition bob : ObjectId := 6%N.
Definition carol : ObjectId := 7%N.

(** The route parameter of the post of [carol]; it casts to the id 1. *)
Definition postParam : string := "000000000000000000000001".

(** One post of [carol], not voted on yet. *)
Definition sampleDb : Store :=
  mkStore {[ 1%N := mkPost carol 0 0 ]} ∅ [] {[ carol := mkUser 0 ]}.

(** The same post with an upvote of [alice]. *)
Definition votedDb : Store :=
  mkStore {[ 1%N := mkPost carol 1 0 ]} ∅ [mkVote alice PostT 1%N 1]
          {[ carol := mkUser 0 ]}.

(** A post of [carol] with a comment of [bob], each upvoted by [alice]. *)
Definition threadDb : Store :=
  mkStore {[ 1%N := mkPost carol 1 0 ]}
          {[ 2%N := mkComment bob 1%N 1 0 ]}
          [mkVote alice PostT 1%N 1; mkVote alice CommentT 2%N 1]
          {[ carol := mkUser 0; bob := mkUser 0 ]}.

(** ** What a committed vote leaves behind *)

(** The database in which the target (kind, id) carries the counters of
    [doc]; a target that is absent stays absent. *)
Definition setCounters (kind : TargetType) (id : ObjectId) (doc : Doc)
    (db : Store) : Store :=
  match kind with
  | PostT =>
      mkStore (alter (λ p, mkPost (post_author p) (doc_upvotes doc)
                                  (doc_downvotes doc)) id (posts db))
              (comments db) (votes db) (users db)
  | CommentT =>
      mkStore (posts db)
              (alter (λ c, mkComment (comment_author c) (comment_post c)
                                     (doc_upvotes doc) (doc_downvotes doc))
                     id (comments db))
              (votes db) (users db)
  end.

(** The users once the karma of [author] has been recalculated from the
    posts and comments of [db]. *)
Definition recalculated (db : Store) (author : ObjectId)
    : gmap ObjectId User :=
  match users db !! author with
  | Some u => <[author := setKarma u (specKarma db author)]> (users db)
  | None => users db
  end.

(** ** Counters and ledger, side by side *)

(** No counter of a post or comment is negative. *)
Definition nonNegative (db : Store) : Prop :=
  ∀ kind id doc,
    findTarget kind db id = Some doc →
    0 ≤ doc_upvotes doc ∧ 0 ≤ doc_downvotes doc.

(** The number of records of value [z] whose target is (kind, id). *)
Definition countVotes (kind : TargetType) (id : ObjectId) (z : Z)
    (l : list Vote) : nat :=
  length (filter (λ v, vote_targetType v = kind ∧ vote_target v = id
                       ∧ vote_value v = z) l).

(** Every target shows, in its two counters, the number of +1 and of -1
    records the ledger holds for it. *)
Definition tallied (db : Store) : Prop :=
  ∀ kind id doc,
    findTarget kind db id = Some doc →
    doc_upvotes doc = Z.of_nat (countVotes kind id 1 (votes db))
    ∧ doc_downvotes doc = Z.of_nat (countVotes kind id (-1) (votes db)).

Section Sequences.

Variable StringToNumber : string → option Z.
Variable castObjectId : string → option ObjectId.

(** The voters of a list send, one after the other, the same value to the
    same target; no storage call fails. *)
Definition voteAll (kind : TargetType) (idParam : string) (value : jsval)
    (voters : list ObjectId) (db : Store) : Store :=
  foldl (λ db uid,
           out_db (serve (voteRoute StringToNumber castObjectId noFaults kind
                                    (mkVoteRequest uid idParam value)) db))
        db voters.

End Sequences.

(** ** The two delete routes, by kind of target *)

Section DeleteByKind.

Variable castObjectId : string → option ObjectId.

(** [DELETE /api/posts/:id] and [DELETE /api/comments/:id]. *)
Definition deleteRoute (kind : TargetType) (flt : Faults) (uid : ObjectId)
    (idParam : string) : M Response :=
  match kind with
  | PostT => deletePost castObjectId flt uid idParam
  | CommentT => deleteComment castObjectId flt uid idParam
  end.

End DeleteByKind.

(** The message of a delete route that went through. *)
Definition removedMessage (kind : TargetType) : string :=
  match kind with
  | PostT => "Post removed"
  | CommentT => "Comment removed"
  end.

(** ** Reading a post ([GET /api/posts/:id]) *)

(** [vote ? vote.value : 0]. *)
Definition userVoteOf (vote : option (nat * Vote)) : Z :=
  match vote with
  | Some (_, v) => vote_value v
  | None => 0
  end.

(** The body of the answer: the post as [lean()] returns it, its populated
    author ([null] when the user is gone) and, for a request that carries a
    user, [userVote]. *)
Record PostView := mkPostView {
  view_post : Post;
  view_author : option User;
  view_userVote : option Z
}.

Inductive ViewResponse :=
| ViewOk (body : PostView)
| ViewError (code : Z) (msg : string).

Definition view_status (r : ViewResponse) : Z :=
  match r with
  | ViewOk _ => 200
  | ViewError code _ => code
  end.

Section ReadRoutes.

Variable castObjectId : string → option ObjectId.

(** [router.get('/:id', optionalAuth, ...)] of [routes/posts.js];
    [user] is [req.user]. *)
Definition getPost (flt : Faults) (user : option ObjectId) (idParam : string)
    : M ViewResponse :=
  tryCatch
    (id ← findByIdCall flt (castObjectId idParam);
     db ← getDb;
     match posts db !! id with
     | None => mret (ViewError 404 "Post not found")
     | Some post =>
         let author := users db !! post_author post in
         match user with
         | Some uid =>
             await flt VoteFindOne;;
             db ← getDb;
             let vote := Vote_findOne (uid, PostT, id) (votes db) in
             mret (ViewOk (mkPostView post author
                                      (Some (userVoteOf vote))))
         | None => mret (ViewOk (mkPostView post author None))
         end
     end)
    (λ error,
       if decide (error = CastError) then mret (ViewError 404 "Post not found")
       else mret (ViewError 500 "Server error")).

End ReadRoutes.

(** ** The vote status in the list routes ([GET /api/posts],
    [GET /api/comments]) *)

(** [Vote.find({ user, targetType, target: { $in: ids } })]. *)
Definition Vote_find (uid : ObjectId) (kind : TargetType)
    (ids : list ObjectId) (l : list Vote) : list Vote :=
  filter (λ v, vote_user v = uid ∧ vote_targetType v = kind
               ∧ vote_target v ∈ ids) l.

(** [userVotes.forEach(vote => { voteMap[vote.target] = vote.value })]. *)
Definition buildVoteMap (userVotes : list Vote) : gmap ObjectId Z :=
  foldl (λ voteMap vote, <[vote_target vote := vote_value vote]> voteMap)
        ∅ userVotes.

(** [voteMap[id] || 0]. *)
Definition voteMapOrZero (voteMap : gmap ObjectId Z) (id : ObjectId) : Z :=
  match voteMap !! id with
  | Some z => if bool_decide (z = 0) then 0 else z
  | None => 0
  end.

(** The [userVote] given to each document of the page [ids], for the user
    [uid]. *)
Definition annotateUserVotes (uid : ObjectId) (kind : TargetType)
    (ids : list ObjectId) (l : list Vote) : list (ObjectId * Z) :=
  let voteMap := buildVoteMap (Vote_find uid kind ids l) in
  (λ id, (id, voteMapOrZero voteMap id)) <$> ids.

(** * Properties *)

(** ** Karma recalculation *)

Section Aggregate.
Context {D : Type} (author : D → ObjectId) (up down : D → Z).
Variable uid : ObjectId.

(** The total of the [$group] stage over a list of documents. *)
Lemma aggregate_total_foldr (l : list (ObjectId * D)) :
  foldr Z.add 0 ((λ d, up d - down d) <$> filter (λ d, author d = uid) l.*2)
  = foldr (uncurry (λ (_ : ObjectId) d acc,
                      if decide (author d = uid)
                      then acc + (up d - down d) else acc)) 0 l.
Proof.
  induction l as [|[k d] l IH]; [done|].
  cbn [fmap list_fmap foldr uncurry snd].
  rewrite filter_cons. cbn [snd].
  destruct (decide (author d = uid)) as [_|_].
  - cbn [fmap list_fmap foldr]. cbn [fmap] in IH. rewrite IH. lia.
  - exact IH.
Qed.

(** [postKarma.length > 0 ? postKarma[0].total : 0] is the sum over the
    documents of the author. *)
Lemma aggregateKarma_total (coll : gmap ObjectId D) :
  match aggregateKarma author up down uid coll with
  | t :: _ => t
  | [] => 0
  end
  = map_fold (λ _ d acc,
                if decide (author d = uid)
                then acc + (up d - down d) else acc) 0 coll.
Proof.
  rewrite map_fold_foldr, <- aggregate_total_foldr.
  unfold aggregateKarma.
  destruct ((λ d, up d - down d) <$> _) eqn:E; [done|].
  by rewrite <- E.
Qed.
End Aggregate.


(** C3. For every user of the database, [updateKarma] run without storage
    failure returns the sum, over all posts and all comments the user
    wrote, of upvotes minus downvotes, and has written that value to the
    [karma] field of the user's document. *)
Theorem updateKarma_writes_sum (db : Store) (uid : ObjectId) (this : User)
    (ses : option Store) (log : list Op) :
  is_Some (users db !! uid) →
  updateKarma noFaults uid this (mkWorld db ses log)
  = Ret (specKarma db uid)
        (mkWorld (withKarma db uid this (specKarma db uid)) ses
                 ((log ++ [PostAggregate; CommentAggregate]) ++ [UserSave]))
  ∧ user_karma <$> users (withKarma db uid this (specKarma db uid)) !! uid
    = Some (specKarma db uid).
Proof.
  intros [u Hu]. split.
  - unfold updateKarma, mbind, M_bind, await, awaitAll, getDb, putDb, mret,
      M_ret, throw.
    cbn [noFaults forallb negb andb w_db w_session w_log].
    rewrite Hu. rewrite !aggregateKarma_total. reflexivity.
  - unfold withKarma. cbn [users]. by rewrite lookup_insert_eq.
Qed.

(** ** Facts on the ledger as a list *)

Lemma Vote_findOne_Some k l i v :
  Vote_findOne k l = Some (i, v) → l !! i = Some v ∧ voteKey v = k.
Proof. unfold Vote_findOne. intros H. apply list_find_Some in H. tauto. Qed.

Lemma Vote_findOne_None k l :
  Vote_findOne k l = None → k ∉ voteKey <$> l.
Proof.
  unfold Vote_findOne. intros H Hin.
  apply list_elem_of_fmap in Hin as (v & -> & Hv).
  rewrite list_find_None, Forall_forall in H. by apply (H v).
Qed.

Lemma uniqueVotes_delete i l : uniqueVotes l → uniqueVotes (delete i l).
Proof.
  unfold uniqueVotes. rewrite list_fmap_delete. intros H.
  eapply sublist_NoDup; [exact H|apply sublist_delete].
Qed.

Lemma uniqueVotes_setValue i v z l :
  l !! i = Some v → uniqueVotes l → uniqueVotes (<[i := setValue v z]> l).
Proof.
  unfold uniqueVotes. intros Hi Hl. rewrite list_fmap_insert.
  rewrite list_insert_id; [done|]. by rewrite list_lookup_fmap, Hi.
Qed.

Lemma uniqueVotes_update i v v' l :
  l !! i = Some v → voteKey v' = voteKey v →
  uniqueVotes l → uniqueVotes (<[i := v']> l).
Proof.
  unfold uniqueVotes. intros Hi Hk Hl. rewrite list_fmap_insert.
  rewrite list_insert_id; [done|]. by rewrite list_lookup_fmap, Hi, Hk.
Qed.

Lemma uniqueVotes_insert_fresh k z l :
  Vote_findOne k l = None →
  uniqueVotes l → uniqueVotes (l ++ [mkVote k.1.1 k.1.2 k.2 z]).
Proof.
  unfold uniqueVotes. intros Hk Hl. rewrite fmap_app. apply NoDup_app.
  split; [done|]. split; [|apply NoDup_singleton].
  intros x Hx Hx'. apply list_elem_of_singleton in Hx'. subst x.
  apply Vote_findOne_None in Hk. apply Hk.
  by destruct k as [[u t] g].
Qed.

Lemma uniqueVotes_deleteMany kind id l :
  uniqueVotes l → uniqueVotes (Vote_deleteMany kind id l).
Proof.
  unfold uniqueVotes, Vote_deleteMany. intros H.
  eapply sublist_NoDup; [exact H|]. apply fmap_sublist, sublist_filter.
Qed.

(** ** Running a route symbolically *)

Ltac unfold_routes :=
  unfold serve, serveFrom, out_status, votePost, voteComment, voteRoute, voteLoad,
    findByIdCall, voteInSession, voteTransaction, reconcile, settle, Vote_saveExisting,
    Vote_saveNew, saveTarget, updateKarma, tryCatch, commitTransaction,
    abortTransaction, startTransaction, serverError, mbind, M_bind, mret,
    M_ret, await, awaitAll, getDb, putDb, getSession, putSession, throw,
    reply in *.

Ltac route_cbn :=
  cbn [negb andb forallb w_db w_session w_log out_db out_response out_log
       votes posts comments users setVotes fst snd app fmap option_fmap
       option_map status noFaults] in *.

(** The scrutinee the evaluation of a term waits for. *)
Ltac head_scrutinee t :=
  lazymatch t with
  | (match ?x with _ => _ end) => head_scrutinee x
  | negb ?x => head_scrutinee x
  | andb ?x _ => head_scrutinee x
  | (?f _) =>
      lazymatch f with
      | (match ?x with _ => _ end) => head_scrutinee x
      | _ => t
      end
  | _ => t
  end.

(** The value of a test on a literal request value. *)
Ltac eval_head H h :=
  lazymatch h with
  | context [JNum] =>
      let v := eval vm_compute in h in
      lazymatch v with
      | true => change h with true in H
      | false => change h with false in H
      | Some ?z => change h with (Some z) in H
      | None => change h with (@None Z) in H
      end
  end.

Ltac known_head H h :=
  match goal with
  | Heq : ?a = _ |- _ => constr_eq a h; rewrite Heq in H
  end.

(** One step of the run whose result is named by [H : run = result]: the
    scrutinee is replaced by its value when a hypothesis or a computation
    gives it, and split into its cases otherwise. *)
Ltac route_step H :=
  lazymatch type of H with
  | ?t = _ =>
      lazymatch t with
      | (match _ with _ => _ end) =>
          let h := head_scrutinee t in
          first [known_head H h | eval_head H h | destruct h eqn:?];
          route_cbn
      | ((match _ with _ => _ end) _) =>
          let h := head_scrutinee t in
          first [known_head H h | eval_head H h | destruct h eqn:?];
          route_cbn
      end
  end.

Ltac route_run H := unfold_routes; route_cbn; repeat route_step H.

Ltac split_elem_of :=
  repeat match goal with
         | H : ?x ∈ _ :: _ |- _ =>
             let E := fresh "E" in
             apply elem_of_cons in H as [E|H]; [try subst x|]
         | H : _ ∈ [] |- _ => by apply elem_of_nil in H
         end.

Section RouteFacts.

Variable StringToNumber : string → option Z.
Variable castObjectId : string → option ObjectId.


(** A storage failure met by a vote request: the answer is 500, the
    ledger and the targets are as before, the session was opened at most
    once, and the transaction, if one was open, was aborted after a
    single read of the ledger. *)
Lemma voteRoute_fault flt kind rq db o op :
  serve (voteRoute StringToNumber castObjectId flt kind rq) db = o →
  flt op = true →
  op ≠ AbortTransaction →
  op ∈ out_log o →
  out_response o = Some (mkResponse 500 "Server error" None)
  ∧ votes (out_db o) = votes db
  ∧ posts (out_db o) = posts db
  ∧ comments (out_db o) = comments db
  ∧ (op ≠ CommitTransaction → out_db o = db)
  ∧ (op ≠ TargetFindById → op ≠ StartSession →
     last (out_log o) = Some AbortTransaction
     ∧ length (filter (λ x, x = VoteFindOne) (out_log o)) = 1%nat)
  ∧ (length (filter (λ x, x = StartSession) (out_log o)) ≤ 1)%nat.
Proof.
  intros Ho Hop Hab Hin. route_run Ho.
  all: subst o; route_cbn; split_elem_of; try congruence.
  all: repeat split; intros; try congruence; try done.
  all: vm_compute; lia.
Qed.


(** The transaction of a vote request keeps the ledger free of
    duplicates, whatever document it was started with. *)
Lemma voteInSession_unique flt kind uid id value post db log r :
  voteInSession StringToNumber flt kind uid id value post
                (mkWorld db None log) = r →
  uniqueVotes (votes db) →
  uniqueVotes (votes (w_db (resultWorld r))).
Proof.
  intros Hr Hu. route_run Hr.
  all: subst r; cbn [resultWorld]; route_cbn; try done.
  all: first
    [ by apply uniqueVotes_delete
    | eapply uniqueVotes_setValue; [|done];
      eapply Vote_findOne_Some; eassumption
    | by apply (uniqueVotes_insert_fresh (_, _, _)) ].
Qed.

(** A vote route keeps the ledger free of duplicates. *)
Lemma voteRoute_unique flt kind rq db :
  uniqueVotes (votes db) →
  uniqueVotes (votes (out_db (serve (voteRoute StringToNumber castObjectId flt kind rq) db))).
Proof.
  intros Hu.
  destruct (serve (voteRoute StringToNumber castObjectId flt kind rq) db) as [resp db' log'] eqn:Ho.
  unfold serve, serveFrom, voteRoute, voteLoad, findByIdCall, tryCatch, mbind, M_bind,
    mret, M_ret, await, getDb, throw, reply in Ho.
  route_cbn. repeat route_step Ho.
  all: injection Ho as <- <- <-; try done.
  all: by apply (voteInSession_unique _ _ _ _ _ _ _ _ _ Heqr).
Qed.

(** So does one stretch of a request in flight. *)
Lemma advance_unique flt kind p db :
  uniqueVotes (votes db) →
  uniqueVotes
    (votes (advance StringToNumber castObjectId flt kind p db).2).
Proof.
  intros Hu. destruct p as [rq|rq id post|resp]; cbn [advance]; [| |done].
  - destruct (voteLoad _ _ _ _ _ _) as [[resp|[id post]] w|e w] eqn:Hl;
      cbn [snd serve serverError mret M_ret reply out_db w_db];
      unfold voteLoad, findByIdCall, mbind, M_bind, mret, M_ret, await, getDb, throw,
        reply in Hl; route_cbn; repeat route_step Hl; by simplify_eq.
  - cbn [snd]. unfold serveFrom, tryCatch, serverError, mret, M_ret.
    destruct (voteInSession _ _ _ _ _ _ _ _) as [resp w|e w] eqn:Hs;
      cbn [out_db w_db];
      apply (voteInSession_unique _ _ _ _ _ _ _ _ _ Hs Hu).
Qed.

(** The transaction of a request that overlaps others keeps the ledger
    free of duplicates, whatever the request has read: a record read earlier
    is written in place, and the insert that follows a [findOne] which found
    nothing goes through the unique index. *)
Lemma voteWrite_unique flt kind uid id value post read db log r :
  tryCatch (voteWrite StringToNumber flt kind uid id value post read)
           serverError (mkWorld db (Some db) log) = r →
  uniqueVotes (votes db) →
  uniqueVotes (votes (w_db (resultWorld r))).
Proof.
  intros Hr Hu. unfold voteWrite, locateVote in Hr. route_run Hr.
  all: subst r; cbn [resultWorld]; route_cbn; try done.
  all: first
    [ by apply uniqueVotes_delete
    | match goal with
      | H : Vote_findOne _ _ = Some _ |- _ =>
          destruct (Vote_findOne_Some _ _ _ _ H) as [Hi Hk];
          eapply uniqueVotes_update; [exact Hi|by rewrite Hk|done]
      end
    | by apply (uniqueVotes_insert_fresh (_, _, _)) ].
Qed.

(** So does one stretch of a request in flight, whatever it has read. *)
Lemma progress_unique flt kind f db :
  uniqueVotes (votes db) →
  uniqueVotes
    (votes (progress StringToNumber castObjectId flt kind f db).2).
Proof.
  intros Hu. destruct f as [rq|rq id post log|rq id post read log|resp];
    cbn [progress]; [| | |done].
  - destruct (voteLoad _ _ _ _ _ _) as [[resp|[id post]] w|e w] eqn:Hl;
      cbn [snd serve serverError mret M_ret reply out_db w_db];
      unfold voteLoad, findByIdCall, mbind, M_bind, mret, M_ret, await,
        getDb, throw, reply in Hl;
      route_cbn; repeat route_step Hl; by simplify_eq.
  - destruct (voteRead _ _ _ _ _) as [read w|e w] eqn:Hl;
      cbn [snd serve serverError mret M_ret reply out_db w_db];
      unfold voteRead in Hl; route_run Hl; by simplify_eq.
  - destruct (tryCatch _ _ _) as [resp w|e w] eqn:Hs; cbn [snd];
      apply (voteWrite_unique _ _ _ _ _ _ _ _ _ _ Hs Hu).
Qed.

End RouteFacts.

(** The closed tests of the goal, computed. *)
Ltac compute_tests :=
  repeat match goal with
         | |- context [bool_decide ?P] =>
             let b := constr:(bool_decide P) in
             let v := eval vm_compute in b in
             lazymatch v with
             | true => change b with true
             | false => change b with false
             end
         end.

Lemma setValue_same v z : vote_value v = z → setValue v z = v.
Proof. intros <-. by destruct v. Qed.

(** The record that [vote.value = z] leaves is the record of the same key
    with value [z]. *)
Lemma setValue_key v k z :
  voteKey v = k → setValue v z = mkVote k.1.1 k.1.2 k.2 z.
Proof. intros <-. by destruct v. Qed.

Lemma Vote_save_same k l i v z :
  Vote_findOne k l = Some (i, v) → vote_value v = z →
  <[i := setValue v z]> l = l.
Proof.
  intros Hf Hz. apply Vote_findOne_Some in Hf as [Hi _].
  rewrite setValue_same by done. by apply list_insert_id.
Qed.

Section TransitionTable.

Variable StringToNumber : string → option Z.
Variable castObjectId : string → option ObjectId.

(** The [if (value === 0) ... else ...] block follows the table. *)
Lemma reconcile_table k previous requested post s db log :
  requested ∈ [-1; 0; 1] →
  previous ∈ [-1; 0; 1] →
  currentVote k (votes s) previous →
  ∃ log',
    reconcile StringToNumber noFaults k (JNum requested) post s
              (Vote_findOne k (votes s)) (mkWorld db (Some s) log)
    = Ret (mkDoc (doc_author post)
                 (applyDelta (doc_upvotes post)
                             (specTransition previous requested).1.2)
                 (applyDelta (doc_downvotes post)
                             (specTransition previous requested).2))
          (mkWorld db
             (Some (setVotes s
                      (applyAction (specTransition previous requested).1.1
                                   k (votes s))))
             log').
Proof.
  intros Hreq Hprev Hcur. unfold currentVote in Hcur.
  destruct post as [author up down], s as [ps cs vs us].
  cbn [votes] in *.
  destruct (Vote_findOne k vs) as [[i v]|] eqn:Hf.
  - destruct Hcur as [Hv Hnz].
    pose proof (proj2 (Vote_findOne_Some _ _ _ _ Hf)) as Hk.
    split_elem_of; try done.
    all: unfold reconcile, Vote_saveExisting, mbind, M_bind, mret, M_ret,
           await, putSession, getSession, throw, applyAction.
    all: rewrite Hv.
    all: cbn; compute_tests; cbn; compute_tests; cbn.
    all: unfold specTransition, applyDelta; compute_tests; cbn; rewrite ?Hf.
    all: unfold setUpvotes, setDownvotes; cbn; compute_tests; cbn.
    all: rewrite ?(Vote_save_same _ _ _ _ _ Hf Hv).
    all: rewrite <- ?(setValue_key v k _ Hk).
    all: eexists; repeat f_equal; lia.
  - split_elem_of; try done.
    all: unfold reconcile, Vote_saveNew, mbind, M_bind, mret, M_ret, await,
           putSession, getSession, throw, applyAction.
    all: cbn; compute_tests; cbn; compute_tests; cbn; rewrite ?Hf.
    all: unfold specTransition, applyDelta; compute_tests; cbn; rewrite ?Hf.
    all: unfold setUpvotes, setDownvotes; cbn; compute_tests; cbn.
    all: eexists; repeat f_equal; lia.
Qed.

(** Without storage failure, the end of the transaction commits the
    ledger of the session and the new counters of the target, and leaves
    every other target as it was. *)
Lemma settle_commits kind id loaded post db s log :
  findTarget kind s id = Some loaded →
  doc_author post = doc_author loaded →
  ∃ db' log',
    settle noFaults kind id loaded post (mkWorld db (Some s) log)
    = Ret () (mkWorld db' None log')
    ∧ votes db' = votes s
    ∧ findTarget kind db' id = Some post
    ∧ (∀ kind' id', (kind', id') ≠ (kind, id) →
         findTarget kind' db' id' = findTarget kind' s id').
Proof.
  intros Hl Ha.
  destruct (settle _ _ _ _ _ _) as [[] w|e w] eqn:Hs.
  all: unfold settle in Hs; route_run Hs.
  all: try discriminate Hs.
  all: try (unfold findTarget in Hl;
            match goal with
            | H : posts _ !! _ = None |- _ =>
                rewrite H in Hl; cbn in Hl; discriminate Hl
            | H : comments _ !! _ = None |- _ =>
                rewrite H in Hl; cbn in Hl; discriminate Hl
            end).
  all: injection Hs as <-; eexists _, _; split; [reflexivity|].
  all: split; [reflexivity|]; unfold findTarget in *; cbn [posts comments].
  all: try (subst post; split; [exact Hl|done]).
  all: match goal with
       | H : posts _ !! _ = Some _ |- _ =>
           rewrite H in Hl; cbn in Hl; injection Hl as <-
       | H : comments _ !! _ = Some _ |- _ =>
           rewrite H in Hl; cbn in Hl; injection Hl as <-
       end.
  all: rewrite lookup_insert_eq; split.
  all: try (intros [|] id' Hne; [|];
            first [reflexivity | rewrite lookup_insert_ne by congruence; reflexivity]).
  all: destruct post as [pa pu pd]; cbn in *; unfold docOfPost, docOfComment;
    cbn; subst pa; repeat case_decide; congruence.
Qed.


Lemma findTarget_setVotes kind s l id :
  findTarget kind (setVotes s l) id = findTarget kind s id.
Proof. by destruct kind. Qed.

(** X25. The transition table, where the ledger is as the specification
    has it. A vote request with an integer value in {-1, 0, +1} on an
    existing target, served without storage failure and with no other
    request in between, when the record of (voter, kind, target), if there is
    one, has value +1 or -1: with [previous] the value the route reads
    ([vote ? vote.value : 0]), the request is answered 200 and performs the
    ledger action and the counter deltas of the row (previous, requested) of
    the table: create on 0 -> +-1, delete on +-1 -> 0, update on a flip,
    nothing when both are equal; a decremented counter is clamped at zero,
    and no other target is touched. *)
Theorem vote_follows_transition_table kind rq db id post requested :
  castObjectId (rq_id rq) = Some id →
  findTarget kind db id = Some post →
  rq_value rq = JNum requested →
  requested ∈ [-1; 0; 1] →
  let k := (rq_user rq, kind, id) in
  let previous := userVoteOf (Vote_findOne k (votes db)) in
  (∀ i v, Vote_findOne k (votes db) = Some (i, v) → vote_value v ∈ [1; -1]) →
  let o := serve (voteRoute StringToNumber castObjectId noFaults kind rq) db in
  let after :=
    mkDoc (doc_author post)
          (applyDelta (doc_upvotes post) (specTransition previous requested).1.2)
          (applyDelta (doc_downvotes post) (specTransition previous requested).2) in
  out_response o = Some (mkResponse 200 "Vote recorded" (Some after))
  ∧ votes (out_db o)
    = applyAction (specTransition previous requested).1.1 k (votes db)
  ∧ findTarget kind (out_db o) id = Some after
  ∧ (∀ kind' id', (kind', id') ≠ (kind, id) →
       findTarget kind' (out_db o) id' = findTarget kind' db id').
Proof.
  intros Hid Hpost Hval Hreq k previous Hsigned o after.
  assert (Hprev : previous ∈ [-1; 0; 1] ∧ currentVote k (votes db) previous).
  { subst previous. unfold currentVote.
    destruct (Vote_findOne k (votes db)) as [[i v]|] eqn:Hf; cbn.
    - specialize (Hsigned i v eq_refl). clear -Hsigned.
      apply elem_of_cons in Hsigned as [E|Hsigned]; [rewrite E|].
      + split; [refine (bool_decide_unpack _ _); vm_compute; exact I|done].
      + apply list_elem_of_singleton in Hsigned. rewrite Hsigned.
        split; [refine (bool_decide_unpack _ _); vm_compute; exact I|done].
    - split; [refine (bool_decide_unpack _ _); vm_compute; exact I|done]. }
  destruct Hprev as [Hprev Hcur].
  destruct rq as [uid idParam value].
  cbn [rq_user rq_id rq_value] in *. subst value.
  assert (Hvalid : validVoteValue StringToNumber (JNum requested) = true).
  { clear -Hreq. split_elem_of; done. }
  destruct (reconcile_table k previous requested post db db
              ([TargetFindById; StartSession; VoteFindOne]) Hreq Hprev Hcur)
    as [log1 Hrec].
  destruct (settle_commits kind id post after db
              (setVotes db (applyAction (specTransition previous requested).1.1
                                        k (votes db))) log1)
    as (db' & log2 & Hset & Hvotes & Htarget & Hothers).
  { by rewrite findTarget_setVotes. }
  { reflexivity. }
  subst o. unfold serve, serveFrom, voteRoute, voteLoad, findByIdCall, voteInSession,
    voteTransaction,
    tryCatch, startTransaction, mbind, M_bind, mret, M_ret, await, getDb,
    getSession.
  cbn [rq_user rq_id rq_value noFaults w_db w_session w_log app].
  rewrite Hvalid. route_cbn. rewrite Hid. route_cbn. rewrite Hpost.
  route_cbn. fold k. rewrite Hrec. fold after. rewrite Hset.
  cbn [out_response out_db w_db].
  repeat split; done.
Qed.

(** C8. Voting again with the value of one's existing vote, when that
    value is not 0, changes nothing: the ledger, the posts and the comments
    (hence every upvote and downvote counter) are as before, whether the
    storage layer fails during the request or not. *)
Theorem repeat_vote_is_noop flt kind rq db id i v z :
  castObjectId (rq_id rq) = Some id →
  Vote_findOne (rq_user rq, kind, id) (votes db) = Some (i, v) →
  vote_value v = z →
  z ≠ 0 →
  rq_value rq = JNum z →
  let o := serve (voteRoute StringToNumber castObjectId flt kind rq) db in
  votes (out_db o) = votes db
  ∧ posts (out_db o) = posts db
  ∧ comments (out_db o) = comments db.
Proof.
  intros Hid Hf Hv Hz Hval o.
  destruct rq as [uid idParam value].
  cbn [rq_user rq_id rq_value] in *. subst value.
  assert (Hs0 : strictEqNum (JNum z) 0 = false)
    by (by apply bool_decide_eq_false).
  assert (Hflip1 : bool_decide (z = 1) && strictEqNum (JNum z) (-1) = false)
    by (cbn; repeat case_bool_decide; (done || lia)).
  assert (Hflip2 : bool_decide (z = -1) && strictEqNum (JNum z) 1 = false)
    by (cbn; repeat case_bool_decide; (done || lia)).
  assert (Hsame : ∀ z', validateVoteValue StringToNumber (JNum z) = Some z' →
                        <[i := setValue v z']> (votes db) = votes db).
  { unfold validateVoteValue. cbn. intros z' Hz'. case_bool_decide; [|done].
    injection Hz' as <-. by apply (Vote_save_same _ _ _ _ _ Hf). }
  remember (serve _ db) as o' eqn:Ho. symmetry in Ho. subst o.
  unfold_routes; route_cbn; cbn [rq_user rq_id rq_value] in *.
  repeat (rewrite ?Hv, ?Hflip1, ?Hflip2 in Ho; route_step Ho).
  all: subst o'; route_cbn; try done.
  all: rewrite Hsame by done; done.
Qed.

End TransitionTable.



(** ** The delete routes and the ledger *)

Ltac unfold_deletes :=
  unfold serve, serveFrom, deletePost, deleteComment, deleteCatch, promiseAll, tryCatch,
    findByIdCall, mbind, M_bind, mret, M_ret, await, getDb, throw, reply in *.

Ltac delete_cbn :=
  cbn [negb andb w_db w_session w_log out_db out_response out_log votes posts
       comments users fst snd app fmap list_fmap foldl forallb
       Post_deleteOne Comment_deleteOne deleteCommentsOf deleteVotesOf
       noFaults] in *.

Ltac delete_step H :=
  lazymatch type of H with
  | ?t = _ =>
      lazymatch t with
      | (match _ with _ => _ end) =>
          let h := head_scrutinee t in
          first [known_head H h | destruct h eqn:?]; delete_cbn
      | ((match _ with _ => _ end) _) =>
          let h := head_scrutinee t in
          first [known_head H h | destruct h eqn:?]; delete_cbn
      end
  end.

Section DeleteFacts.

Variable castObjectId : string → option ObjectId.

(** What a delete route can do to the ledger: nothing, or
    [Vote.deleteMany] on the target of the route. *)
Lemma deletePost_ledger flt uid idParam db :
  let o := serve (deletePost castObjectId flt uid idParam) db in
  votes (out_db o) = votes db
  ∨ ∃ id, castObjectId idParam = Some id
          ∧ votes (out_db o) = Vote_deleteMany PostT id (votes db).
Proof.
  intros o. remember (serve _ db) as o' eqn:Ho. symmetry in Ho. subst o.
  unfold_deletes; delete_cbn. repeat delete_step Ho.
  all: subst o'; delete_cbn; eauto.
  all: destruct (flt VoteDeleteMany), (flt CommentDeleteMany),
         (flt TargetDeleteOne); delete_cbn; eauto.
Qed.

Lemma deleteComment_ledger flt uid idParam db :
  let o := serve (deleteComment castObjectId flt uid idParam) db in
  votes (out_db o) = votes db
  ∨ ∃ id, castObjectId idParam = Some id
          ∧ votes (out_db o) = Vote_deleteMany CommentT id (votes db).
Proof.
  intros o. remember (serve _ db) as o' eqn:Ho. symmetry in Ho. subst o.
  unfold_deletes; delete_cbn. repeat delete_step Ho.
  all: subst o'; delete_cbn; eauto.
  all: destruct (flt VoteDeleteMany), (flt TargetDeleteOne);
    delete_cbn; eauto.
Qed.

End DeleteFacts.

(** ** The ledger in the reachable states *)

Section Reachability.

Variable StringToNumber : string → option Z.
Variable castObjectId : string → option ObjectId.


Lemma step_unique db db' :
  step StringToNumber castObjectId db db' →
  uniqueVotes (votes db) → uniqueVotes (votes db').
Proof.
  intros Hstep Hu. destruct Hstep as [flt kind rq db|flt kind p db
    |flt kind f db|flt uid idParam db|flt uid idParam db|db db' Hsame].
  - by apply voteRoute_unique.
  - by apply advance_unique.
  - by apply progress_unique.
  - destruct (deletePost_ledger castObjectId flt uid idParam db)
      as [->|(id & _ & ->)]; [done|by apply uniqueVotes_deleteMany].
  - destruct (deleteComment_ledger castObjectId flt uid idParam db)
      as [->|(id & _ & ->)]; [done|by apply uniqueVotes_deleteMany].
  - by rewrite Hsame.
Qed.

Lemma reachable_unique db :
  reachable StringToNumber castObjectId db → uniqueVotes (votes db).
Proof.
  unfold reachable. intros Hr.
  refine (rtc_ind_r (λ db, uniqueVotes (votes db)) emptyStore _ _ db Hr).
  - constructor.
  - intros mid db' _ Hlast IH. by eapply step_unique.
Qed.

(** C4. In every reachable state no two records of the ledger have the
    same (voter, target kind, target), and every event of the server keeps
    it so: a vote request in particular, also when its transaction overlaps
    others and it writes on what it read before they committed. Two requests
    for one key can both find no record; the unique index is what refuses
    the second insert. *)
Theorem ledger_keys_are_unique db :
  reachable StringToNumber castObjectId db →
  (∀ i j v v',
     votes db !! i = Some v → votes db !! j = Some v' →
     voteKey v = voteKey v' → i = j)
  ∧ (∀ db', step StringToNumber castObjectId db db' →
            uniqueVotes (votes db')).
Proof.
  intros Hr. pose proof (reachable_unique db Hr) as Hu. split.
  - intros i j v v' Hi Hj Hk. unfold uniqueVotes in Hu.
    eapply NoDup_lookup; [exact Hu| |].
    + rewrite list_lookup_fmap, Hi. reflexivity.
    + rewrite list_lookup_fmap, Hj. cbn. by rewrite Hk.
  - intros db' Hstep. by eapply step_unique.
Qed.

End Reachability.

(** ** Storage failures during a vote request *)


Section Failures.

Variable StringToNumber : string → option Z.
Variable castObjectId : string → option ObjectId.

(** C5, as the code has it. When a call of the karma recalculation is
    rejected during a vote request, the transaction is aborted: the
    database is left exactly as it was before the request (the ledger
    write and the counter update are rolled back) and the answer is
    500. *)
Theorem karma_failure_aborts_vote flt kind rq db op :
  op ∈ karmaOps →
  flt op = true →
  op ∈ out_log (serve (voteRoute StringToNumber castObjectId flt kind rq) db) →
  let o := serve (voteRoute StringToNumber castObjectId flt kind rq) db in
  out_response o = Some (reply 500 "Server error")
  ∧ out_db o = db
  ∧ last (out_log o) = Some AbortTransaction.
Proof.
  intros Hk Hop Hin o.
  assert (Hne : op ≠ AbortTransaction ∧ op ≠ CommitTransaction
                ∧ op ≠ TargetFindById ∧ op ≠ StartSession).
  { unfold karmaOps in Hk. split_elem_of; done. }
  destruct Hne as (Hab & Hc & Hf & Hs).
  destruct (voteRoute_fault StringToNumber castObjectId flt kind rq db o op
              eq_refl Hop Hab Hin)
    as (Hst & _ & _ & _ & Hdb & Hlast & _).
  destruct (Hlast Hf Hs) as [Hl _].
  split; [exact Hst|]. split; [by apply Hdb|exact Hl].
Qed.

(** C7, as the code has it. When a write made through the transaction
    of a vote request is rejected (a conflicting writer, a violated unique
    index, a serialization failure), the handler aborts the transaction
    and answers 500 at once: the ledger has been read once, nothing is
    tried again, and the ledger and the counters are as before the
    request. *)
Theorem write_conflict_aborts_without_retry flt kind rq db op :
  op ∈ writeOps →
  flt op = true →
  op ∈ out_log (serve (voteRoute StringToNumber castObjectId flt kind rq) db) →
  let o := serve (voteRoute StringToNumber castObjectId flt kind rq) db in
  out_response o = Some (reply 500 "Server error")
  ∧ votes (out_db o) = votes db
  ∧ posts (out_db o) = posts db
  ∧ comments (out_db o) = comments db
  ∧ last (out_log o) = Some AbortTransaction
  ∧ length (filter (λ x, x = VoteFindOne) (out_log o)) = 1%nat
  ∧ ¬ retried (out_log o).
Proof.
  intros Hk Hop Hin o.
  assert (Hne : op ≠ AbortTransaction ∧ op ≠ TargetFindById
                ∧ op ≠ StartSession).
  { unfold writeOps in Hk. split_elem_of; done. }
  destruct Hne as (Hab & Hf & Hs).
  destruct (voteRoute_fault StringToNumber castObjectId flt kind rq db o op
              eq_refl Hop Hab Hin)
    as (Hst & Hv & Hp & Hc & _ & Hlast & _).
  destruct (Hlast Hf Hs) as [Hl Hcount].
  repeat split; try done.
  unfold retried. rewrite Hcount. lia.
Qed.

End Failures.

(** ** Validation of a vote request *)

Section Validation.

Variable StringToNumber : string → option Z.
Variable castObjectId : string → option ObjectId.

(** A value that [Number(...)] does not send to 1, 0 or -1 is refused
    with 400 before any storage call, and nothing is written. *)
Lemma invalid_value_rejected flt kind rq db :
  validVoteValue StringToNumber (rq_value rq) = false →
  serve (voteRoute StringToNumber castObjectId flt kind rq) db
  = mkOutcome (Some (reply 400 "Invalid vote value")) db [].
Proof.
  intros Hv. unfold serve, serveFrom, voteRoute, voteLoad, findByIdCall, tryCatch, mbind,
    M_bind, mret, M_ret.
  by rewrite Hv.
Qed.

(** An id that casts to an ObjectId no target has is answered 404, and
    nothing is written. *)
Lemma missing_target_not_found flt kind rq db id :
  validVoteValue StringToNumber (rq_value rq) = true →
  flt TargetFindById = false →
  castObjectId (rq_id rq) = Some id →
  findTarget kind db id = None →
  serve (voteRoute StringToNumber castObjectId flt kind rq) db
  = mkOutcome (Some (reply 404 (notFoundMessage kind))) db [TargetFindById].
Proof.
  intros Hv Hf Hid Hnone. unfold serve, serveFrom, voteRoute, voteLoad, findByIdCall,
    tryCatch, mbind, M_bind, mret, M_ret, await, getDb.
  rewrite Hv, Hf, Hid. cbn [negb w_db]. by rewrite Hnone.
Qed.

(** An id that does not cast to an ObjectId makes [findById] throw; the
    vote routes have no case for that error and answer 500. Nothing is
    written. *)
Lemma malformed_id_server_error flt kind rq db :
  validVoteValue StringToNumber (rq_value rq) = true →
  castObjectId (rq_id rq) = None →
  serve (voteRoute StringToNumber castObjectId flt kind rq) db
  = mkOutcome (Some (reply 500 "Server error")) db [TargetFindById].
Proof.
  intros Hv Hid. unfold serve, serveFrom, voteRoute, voteLoad, findByIdCall,
    tryCatch, mbind, M_bind, mret, M_ret, await, getDb, throw.
  rewrite Hv, Hid. cbn [negb]. by destruct (flt TargetFindById).
Qed.

(** The delete route of the posts answers 404 on such an id. *)
Lemma deletePost_malformed_id uid idParam db :
  castObjectId idParam = None →
  serve (deletePost castObjectId noFaults uid idParam) db
  = mkOutcome (Some (reply 404 "Post not found")) db [TargetFindById].
Proof.
  intros Hid. unfold serve, serveFrom, deletePost, tryCatch, mbind, M_bind,
    await, throw. cbn [noFaults]. by rewrite Hid.
Qed.

(** A request whose value is a number leaves only +1 and -1 in the
    ledger. *)
Lemma integer_vote_keeps_signed flt kind rq db z :
  rq_value rq = JNum z →
  signedVotes (votes db) →
  signedVotes
    (votes (out_db (serve (voteRoute StringToNumber castObjectId flt kind rq) db))).
Proof.
  intros Hval Hs. destruct rq as [uid idParam value].
  cbn [rq_value] in Hval. subst value.
  remember (serve _ db) as o eqn:Ho. symmetry in Ho.
  assert (Hz : ∀ z', strictEqNum (JNum z) 0 = false →
                     validateVoteValue StringToNumber (JNum z) = Some z' →
                     z' = 1 ∨ z' = -1).
  { unfold validateVoteValue. cbn. intros z' H0 Hz'.
    apply bool_decide_eq_false in H0.
    case_bool_decide as Hin; [|done]. injection Hz' as <-.
    split_elem_of; (done || lia || auto). }
  unfold_routes; route_cbn; cbn [rq_user rq_id rq_value] in *.
  repeat route_step Ho.
  all: subst o; route_cbn; try done.
  all: unfold signedVotes in *.
  all: first
    [ by apply Forall_delete
    | apply Forall_insert; [done|]; cbn [vote_value setValue]; by apply Hz
    | apply Forall_app; split; [done|]; apply Forall_singleton;
      cbn [vote_value]; by apply Hz ].
Qed.

End Validation.

(** ** Deleting a post *)

Lemma elem_of_Vote_deleteMany kind id l v :
  v ∈ Vote_deleteMany kind id l
  ↔ v ∈ l ∧ ¬ (vote_targetType v = kind ∧ vote_target v = id).
Proof. unfold Vote_deleteMany. rewrite list_elem_of_filter. tauto. Qed.

(** C10. Deleting a post, as its author and without storage failure,
    removes the post, the comments of the post and the votes whose target
    is the post; every vote on a comment stays in the ledger, those on the
    comments that were just removed included, so that records pointing to
    comments that no longer exist can remain. Deleting a comment through the
    comment route removes the comment and the votes whose target it is. *)
Theorem deletePost_keeps_votes_of_its_comments
    (castObjectId : string → option ObjectId) uid idParam db id p :
  castObjectId idParam = Some id →
  posts db !! id = Some p →
  post_author p = uid →
  let o := serve (deletePost castObjectId noFaults uid idParam) db in
  out_response o = Some (reply 200 "Post removed")
  ∧ posts (out_db o) !! id = None
  ∧ (∀ cid c, comments (out_db o) !! cid = Some c
              ↔ comments db !! cid = Some c ∧ comment_post c ≠ id)
  ∧ (∀ v, v ∈ votes (out_db o)
          ↔ v ∈ votes db ∧ ¬ (vote_targetType v = PostT ∧ vote_target v = id))
  ∧ (∀ v c, v ∈ votes db → vote_targetType v = CommentT →
            comments db !! vote_target v = Some c → comment_post c = id →
            v ∈ votes (out_db o) ∧ comments (out_db o) !! vote_target v = None)
  ∧ (∀ cuid cParam cid c,
       castObjectId cParam = Some cid →
       comments db !! cid = Some c →
       comment_author c = cuid →
       let o' := serve (deleteComment castObjectId noFaults cuid cParam) db in
       out_response o' = Some (reply 200 "Comment removed")
       ∧ comments (out_db o') !! cid = None
       ∧ (∀ v, v ∈ votes (out_db o')
               ↔ v ∈ votes db
                 ∧ ¬ (vote_targetType v = CommentT ∧ vote_target v = cid))).
Proof.
  intros Hid Hp Ha o.
  assert (Ho : o = mkOutcome (Some (reply 200 "Post removed"))
                 (deleteVotesOf PostT id
                    (deleteCommentsOf id (Post_deleteOne id db)))
                 [TargetFindById; TargetDeleteOne; CommentDeleteMany;
                  VoteDeleteMany]).
  { subst o. unfold_deletes. delete_cbn. rewrite Hid. delete_cbn.
    rewrite Hp. rewrite bool_decide_eq_true_2 by done. reflexivity. }
  rewrite Ho. cbn [out_response out_db deleteVotesOf deleteCommentsOf
                   Post_deleteOne posts comments votes].
  split; [done|]. split; [apply lookup_delete_eq|].
  split.
  { intros cid c. unfold Comment_deleteMany.
    rewrite map_lookup_filter_Some. reflexivity. }
  split; [intros v; apply elem_of_Vote_deleteMany|].
  split.
  { intros v c Hv Hk Hc Hpost. split.
    - apply elem_of_Vote_deleteMany. split; [done|]. intros [Hk' _]. congruence.
    - unfold Comment_deleteMany. apply map_lookup_filter_None. right.
      intros c' Hc'. cbn. rewrite Hc in Hc'. injection Hc' as <-. tauto. }
  intros cuid cParam cid c Hcid Hc Hca. set (o' := serve _ db).
  assert (Ho' : o' = mkOutcome (Some (reply 200 "Comment removed"))
                  (deleteVotesOf CommentT cid (Comment_deleteOne cid db))
                  [TargetFindById; TargetDeleteOne; VoteDeleteMany]).
  { subst o'. unfold_deletes. delete_cbn. rewrite Hcid. delete_cbn.
    rewrite Hc. rewrite bool_decide_eq_true_2 by done. reflexivity. }
  rewrite Ho'. cbn [out_response out_db deleteVotesOf Comment_deleteOne
                    posts comments votes].
  split; [done|]. split; [apply lookup_delete_eq|].
  intros v; apply elem_of_Vote_deleteMany.
Qed.

(** ** The two stretches of a request and the route *)

Section Stretches.

Variable StringToNumber : string → option Z.
Variable castObjectId : string → option ObjectId.

Lemma voteLoad_world flt kind rq db log r :
  voteLoad StringToNumber castObjectId flt kind rq (mkWorld db None log) = r →
  w_db (resultWorld r) = db ∧ w_session (resultWorld r) = None.
Proof.
  intros Hr. unfold voteLoad, findByIdCall, mbind, M_bind, mret, M_ret, await, getDb,
    throw, reply in Hr.
  route_cbn. repeat route_step Hr. all: by subst r.
Qed.

(** A request that runs its two stretches one after the other, with no
    other request in between, is the route served in one go. *)
Lemma stretches_make_the_route flt kind rq db :
  let first := advance StringToNumber castObjectId flt kind (Waiting rq) db in
  advance StringToNumber castObjectId flt kind first.1 first.2
  = (Done (out_response
             (serve (voteRoute StringToNumber castObjectId flt kind rq) db)),
     out_db (serve (voteRoute StringToNumber castObjectId flt kind rq) db)).
Proof.
  unfold serve, serveFrom, voteRoute, tryCatch, mbind, M_bind. cbn [advance].
  destruct (voteLoad _ _ _ _ _ _) as [[resp|[id post]] w|e w] eqn:Hl;
    apply voteLoad_world in Hl as [Hdb Hs]; cbn [resultWorld] in Hdb, Hs;
    destruct w as [db' ses log]; cbn [w_db w_session w_log] in *; subst;
    cbn [fst snd advance serveFrom serverError mret M_ret w_db w_log
         out_response out_db]; reflexivity.
Qed.

(** The transaction of a vote route is its read followed by its writes:
    with no other request in between, the record is where [findOne] found
    it. *)
Lemma voteRead_then_voteWrite flt kind uid id value post w :
  voteInSession StringToNumber flt kind uid id value post w
  = match voteRead flt kind uid id w with
    | Ret read w' => voteWrite StringToNumber flt kind uid id value post read w'
    | Throw e w' => Throw e w'
    end.
Proof.
  unfold voteInSession, voteTransaction, voteRead, voteWrite, locateVote,
    tryCatch, startTransaction, abortTransaction, mbind, M_bind, mret, M_ret,
    await, getSession, throw.
  cbn [w_db w_session w_log].
  destruct (flt StartSession); [reflexivity|].
  destruct (flt VoteFindOne); [reflexivity|].
  cbn [w_db w_session w_log].
  destruct (Vote_findOne (uid, kind, id) (votes (w_db w))) as [[i v]|] eqn:Hf;
    cbn [fmap option_fmap option_map compose snd w_session fst].
  - rewrite Hf. apply Vote_findOne_Some in Hf as [_ Hk].
    replace (mkVote uid kind id (vote_value v)) with v.
    + cbn [w_db w_session w_log].
      destruct (reconcile _ _ _ _ _ _ _ _) as [a w'|e w']; [|reflexivity].
      by destruct (settle _ _ _ _ _ _).
    + destruct v as [u t g z]. by injection Hk as -> -> ->.
  - cbn [w_db w_session w_log].
    destruct (reconcile _ _ _ _ _ _ _ _) as [a w'|e w']; [|reflexivity].
    by destruct (settle _ _ _ _ _ _).
Qed.

(** A request that runs its three stretches one after the other, with no
    other request in between, is the route served in one go. *)
Lemma flights_make_the_route flt kind rq db :
  let first := progress StringToNumber castObjectId flt kind (Arrived rq) db in
  let second :=
    progress StringToNumber castObjectId flt kind first.1 first.2 in
  progress StringToNumber castObjectId flt kind second.1 second.2
  = (Answered (out_response
                 (serve (voteRoute StringToNumber castObjectId flt kind rq)
                        db)),
     out_db (serve (voteRoute StringToNumber castObjectId flt kind rq) db)).
Proof.
  unfold serve, serveFrom, voteRoute, tryCatch, mbind, M_bind.
  cbn [progress].
  destruct (voteLoad _ _ _ _ _ _) as [[resp|[id post]] w|e w] eqn:Hl;
    apply voteLoad_world in Hl as [Hdb Hs]; cbn [resultWorld] in Hdb, Hs;
    destruct w as [db' ses log]; cbn [w_db w_session w_log] in *; subst;
    cbn [fst snd progress serveFrom serverError mret M_ret w_db w_log
         out_response out_db]; try reflexivity.
  rewrite voteRead_then_voteWrite.
  destruct (voteRead _ _ _ _ _) as [read w|e w] eqn:Hr.
  - assert (Hw : w = mkWorld db (Some db) (w_log w)).
    { unfold voteRead, tryCatch, startTransaction, abortTransaction, mbind,
        M_bind, mret, M_ret, await, getSession, throw in Hr.
      cbn [w_db w_session w_log] in Hr.
      destruct (flt StartSession); [discriminate Hr|].
      destruct (flt VoteFindOne); [discriminate Hr|].
      by injection Hr as _ <-. }
    destruct w as [d s l]. cbn [w_log] in Hw. injection Hw as -> ->.
    cbn [fst snd progress w_db w_log]. unfold tryCatch.
    destruct (voteWrite _ _ _ _ _ _ _ _ _) as [resp w'|e w']; reflexivity.
  - cbn [fst snd progress serveFrom serverError mret M_ret w_db w_log
         out_response out_db]. reflexivity.
Qed.

End Stretches.

(** ** The routes on the small database *)

Ltac decide_it := refine (bool_decide_unpack _ _); vm_compute; exact I.

Example postParam_casts : hexObjectId postParam = Some 1%N.
Proof. reflexivity. Qed.

Example zero_string_converts : decimalToNumber "0" = Some 0.
Proof. reflexivity. Qed.

Lemma sampleDb_reachable : reachable decimalToNumber hexObjectId sampleDb.
Proof. apply rtc_once, step_other. reflexivity. Qed.

(** C2. Two users cast their first +1 on the same post. Each request
    loads the post before it opens its transaction; when both have loaded it
    before either transaction runs, both requests are answered 200, the
    ledger holds the two votes, and the post ends with one upvote: an
    update of the counter is lost. Served one after the other, the same
    requests leave two upvotes. *)
Theorem concurrent_first_votes_lose_an_update :
  let requests :=
    [ Waiting (mkVoteRequest alice postParam (JNum 1));
      Waiting (mkVoteRequest bob postParam (JNum 1)) ] in
  let run schedule :=
    runSchedule decimalToNumber hexObjectId noFaults PostT schedule requests
                sampleDb in
  let interleaved := run [0; 1; 0; 1]%nat in
  let sequential := run [0; 0; 1; 1]%nat in
  forallb succeeded interleaved.1 = true
  ∧ votes interleaved.2 = [mkVote alice PostT 1%N 1; mkVote bob PostT 1%N 1]
  ∧ findTarget PostT interleaved.2 1%N = Some (mkDoc carol 1 0)
  ∧ forallb succeeded sequential.1 = true
  ∧ findTarget PostT sequential.2 1%N = Some (mkDoc carol 2 0).
Proof. vm_compute. repeat split; reflexivity. Qed.

(** C6. A vote request whose route parameter is not an ObjectId: the
    value is valid, [findById] throws a cast error, and the vote route
    answers 500, not 404; nothing is written. The delete route of the same
    file answers 404 on the same parameter. *)
Theorem vote_with_malformed_id_answers_500 :
  let rq := mkVoteRequest alice "abc" (JNum 1) in
  hexObjectId "abc" = None
  ∧ serve (votePost decimalToNumber hexObjectId noFaults rq) sampleDb
    = mkOutcome (Some (reply 500 "Server error")) sampleDb [TargetFindById]
  ∧ serve (deletePost hexObjectId noFaults alice "abc") sampleDb
    = mkOutcome (Some (reply 404 "Post not found")) sampleDb [TargetFindById].
Proof.
  split; [reflexivity|]. split.
  - by apply malformed_id_server_error.
  - by apply deletePost_malformed_id.
Qed.

(** C9. A vote request whose value is the string "0": [Number("0")] is 0,
    so the value is accepted; it is not [=== 0], so the route takes the
    branch that saves a vote; the schema casts it to the number 0, which its
    [enum] allows. The request is answered 200 and the ledger of the state
    reached holds a record of value 0. *)
Theorem string_zero_vote_is_stored :
  let rq := mkVoteRequest alice postParam (JStr "0") in
  let o := serve (votePost decimalToNumber hexObjectId noFaults rq) sampleDb in
  validVoteValue decimalToNumber (rq_value rq) = true
  ∧ out_status o = Some 200
  ∧ votes (out_db o) = [mkVote alice PostT 1%N 0]
  ∧ reachable decimalToNumber hexObjectId (out_db o)
  ∧ ¬ signedVotes (votes (out_db o)).
Proof.
  intros rq o. split; [reflexivity|]. split; [reflexivity|].
  split; [reflexivity|]. split.
  - eapply rtc_r; [apply sampleDb_reachable|]. apply step_vote.
  - change (votes (out_db o)) with [mkVote alice PostT 1%N 0].
    intros Hs. apply Forall_cons in Hs as [[Hv|Hv] _]; discriminate Hv.
Qed.

(** C1. The state that the string "0" leaves (C9) holds a record of value
    0 for the key of [alice]: the ledger value of the key is 0. The table
    asks, for 0 -> +1, a record created and one upvote more, and for 0 -> 0
    nothing. The route finds the record: on +1 it updates it and counts no
    upvote, and on 0 it deletes it. *)
Theorem vote_on_stored_zero_departs_from_table :
  let k := (alice, PostT, 1%N) in
  let serveVote value db :=
    serve (votePost decimalToNumber hexObjectId noFaults
                    (mkVoteRequest alice postParam value)) db in
  let db0 := out_db (serveVote (JStr "0") sampleDb) in
  let up := serveVote (JNum 1) db0 in
  let zero := serveVote (JNum 0) db0 in
  reachable decimalToNumber hexObjectId db0
  ∧ findTarget PostT db0 1%N = Some (mkDoc carol 0 0)
  ∧ votes db0 = [mkVote alice PostT 1%N 0]
  ∧ userVoteOf (Vote_findOne k (votes db0)) = 0
  ∧ specTransition 0 1 = (ActCreate 1, 1, 0)
  ∧ out_status up = Some 200
  ∧ votes (out_db up) = [mkVote alice PostT 1%N 1]
  ∧ findTarget PostT (out_db up) 1%N = Some (mkDoc carol 0 0)
  ∧ applyDelta 0 (specTransition 0 1).1.2 = 1
  ∧ specTransition 0 0 = (ActNoOp, 0, 0)
  ∧ out_status zero = Some 200
  ∧ votes (out_db zero) = []
  ∧ applyAction (specTransition 0 0).1.1 k (votes db0) = votes db0.
Proof.
  intros k serveVote db0 up zero. split.
  - eapply rtc_r; [apply sampleDb_reachable|]. apply step_vote.
  - repeat split; reflexivity.
Qed.

(** C5, counterexample. [alice] upvotes the post of [carol] and the first
    aggregation of the karma recalculation is rejected. The recalculation
    was reached and failed, and the vote is not committed: the ledger is
    empty and the post has no upvote, whereas the same request without the
    failure leaves the vote and one upvote. *)
Lemma karma_failure_undoes_the_vote :
  let rq := mkVoteRequest alice postParam (JNum 1) in
  let served := serve (votePost decimalToNumber hexObjectId noFaults rq) sampleDb in
  let failed :=
    serve (votePost decimalToNumber hexObjectId (failAt PostAggregate) rq)
          sampleDb in
  out_log failed
  = [TargetFindById; StartSession; VoteFindOne; VoteSave; TargetSave;
     UserFindById; PostAggregate; CommentAggregate; AbortTransaction]
  ∧ votes (out_db served) = [mkVote alice PostT 1%N 1]
  ∧ findTarget PostT (out_db served) 1%N = Some (mkDoc carol 1 0)
  ∧ votes (out_db failed) = []
  ∧ findTarget PostT (out_db failed) 1%N = Some (mkDoc carol 0 0)
  ∧ out_status failed = Some 500
  ∧ ¬ (votes (out_db failed) = votes (out_db served)).
Proof. vm_compute. repeat split; (reflexivity || discriminate). Qed.

(** C7, counterexample. [alice] upvotes the post of [carol] and the write
    of the vote is rejected, as a conflicting writer would make it. The
    failure is surfaced with 500 after a single read of the ledger: the
    read-compute-write sequence was not run again. *)
Lemma write_conflict_is_not_retried :
  let rq := mkVoteRequest alice postParam (JNum 1) in
  let o :=
    serve (votePost decimalToNumber hexObjectId (failAt VoteSave) rq) sampleDb in
  out_log o
  = [TargetFindById; StartSession; VoteFindOne; VoteSave; AbortTransaction]
  ∧ out_status o = Some 500
  ∧ ¬ retried (out_log o).
Proof.
  vm_compute. repeat split; try reflexivity.
  intros H. apply Nat.le_ngt in H. apply H. repeat constructor.
Qed.

(** ** The theorems at work on the small database *)

Lemma vote_follows_transition_table_witness :
  let rq := mkVoteRequest alice postParam (JNum (-1)) in
  let o := serve (voteRoute decimalToNumber hexObjectId noFaults PostT rq)
                 votedDb in
  Vote_findOne (alice, PostT, 1%N) (votes votedDb)
  = Some (0%nat, mkVote alice PostT 1%N 1)
  ∧ out_response o
    = Some (mkResponse 200 "Vote recorded" (Some (mkDoc carol 0 1)))
  ∧ votes (out_db o) = [mkVote alice PostT 1%N (-1)]
  ∧ findTarget PostT (out_db o) 1%N = Some (mkDoc carol 0 1).
Proof.
  intros rq o. split; [reflexivity|].
  destruct (vote_follows_transition_table decimalToNumber hexObjectId PostT rq
              votedDb 1%N (mkDoc carol 1 0) (-1)
              eq_refl eq_refl eq_refl ltac:(decide_it))
    as (Hr & Hv & Ht & _).
  { intros i v [= <- <-]. decide_it. }
  split; [exact Hr|]. split; [exact Hv|exact Ht].
Defined.

Lemma updateKarma_writes_sum_witness :
  is_Some (users threadDb !! carol)
  ∧ updateKarma noFaults carol (mkUser 0) (mkWorld threadDb None [])
    = Ret 1 (mkWorld (withKarma threadDb carol (mkUser 0) 1) None
                     [PostAggregate; CommentAggregate; UserSave]).
Proof.
  assert (Hu : is_Some (users threadDb !! carol)) by (by eexists).
  split; [exact Hu|].
  exact (proj1 (updateKarma_writes_sum threadDb carol (mkUser 0) None [] Hu)).
Defined.

Lemma ledger_keys_are_unique_witness :
  let rq := mkVoteRequest alice postParam (JNum 1) in
  let run := runFlights decimalToNumber hexObjectId noFaults PostT in
  let before := run [0; 1; 0; 1; 0]%nat [Arrived rq; Arrived rq] sampleDb in
  let second :=
    Reading rq 1%N (mkDoc carol 0 0) None
            [TargetFindById; StartSession; VoteFindOne] in
  let after :=
    progress decimalToNumber hexObjectId noFaults PostT second before.2 in
  before.1 !! 1%nat = Some second
  ∧ votes before.2 = [mkVote alice PostT 1%N 1]
  ∧ reachable decimalToNumber hexObjectId before.2
  ∧ after.1 = Answered (Some (reply 500 "Server error"))
  ∧ votes after.2 = [mkVote alice PostT 1%N 1]
  ∧ uniqueVotes (votes after.2).
Proof.
  intros rq run before second after.
  assert (Hr : reachable decimalToNumber hexObjectId before.2).
  { eapply rtc_r; [apply sampleDb_reachable|].
    apply (step_vote decimalToNumber hexObjectId noFaults PostT rq). }
  split; [reflexivity|]. split; [reflexivity|]. split; [exact Hr|].
  split; [reflexivity|]. split; [reflexivity|].
  apply (proj2 (ledger_keys_are_unique decimalToNumber hexObjectId before.2
                  Hr)).
  apply step_flight.
Defined.

Lemma repeat_vote_is_noop_witness :
  let rq := mkVoteRequest alice postParam (JNum 1) in
  Vote_findOne (alice, PostT, 1%N) (votes votedDb)
  = Some (0%nat, mkVote alice PostT 1%N 1)
  ∧ votes (out_db (serve (voteRoute decimalToNumber hexObjectId noFaults PostT
                                    rq) votedDb))
    = votes votedDb.
Proof.
  intros rq. split; [reflexivity|].
  refine (proj1 (repeat_vote_is_noop decimalToNumber hexObjectId noFaults PostT
                   rq votedDb 1%N 0%nat (mkVote alice PostT 1%N 1) 1
                   eq_refl eq_refl eq_refl _ eq_refl)).
  lia.
Defined.

Lemma karma_failure_aborts_vote_witness :
  let rq := mkVoteRequest alice postParam (JNum 1) in
  let o := serve (voteRoute decimalToNumber hexObjectId (failAt PostAggregate)
                            PostT rq) sampleDb in
  PostAggregate ∈ out_log o
  ∧ out_db o = sampleDb.
Proof.
  intros rq o.
  assert (Hin : PostAggregate ∈ out_log o) by decide_it.
  split; [exact Hin|].
  refine (proj1 (proj2 (karma_failure_aborts_vote decimalToNumber hexObjectId
                          (failAt PostAggregate) PostT rq sampleDb
                          PostAggregate _ eq_refl Hin))).
  decide_it.
Defined.

Lemma write_conflict_aborts_without_retry_witness :
  let rq := mkVoteRequest alice postParam (JNum 1) in
  let o := serve (voteRoute decimalToNumber hexObjectId (failAt VoteSave)
                            PostT rq) sampleDb in
  VoteSave ∈ out_log o
  ∧ out_response o = Some (reply 500 "Server error").
Proof.
  intros rq o.
  assert (Hin : VoteSave ∈ out_log o) by decide_it.
  split; [exact Hin|].
  refine (proj1 (write_conflict_aborts_without_retry decimalToNumber
                   hexObjectId (failAt VoteSave) PostT rq sampleDb VoteSave
                   _ eq_refl Hin)).
  decide_it.
Defined.

Lemma deletePost_keeps_votes_of_its_comments_witness :
  let o := serve (deletePost hexObjectId noFaults carol postParam) threadDb in
  posts threadDb !! 1%N = Some (mkPost carol 1 0)
  ∧ mkVote alice CommentT 2%N 1 ∈ votes (out_db o)
  ∧ comments (out_db o) !! 2%N = None.
Proof.
  intros o. split; [reflexivity|].
  destruct (deletePost_keeps_votes_of_its_comments hexObjectId carol postParam
              threadDb 1%N (mkPost carol 1 0) eq_refl eq_refl eq_refl)
    as (_ & _ & _ & _ & Hkept & _).
  apply (Hkept (mkVote alice CommentT 2%N 1) (mkComment bob 1%N 1 0)).
  - decide_it.
  - reflexivity.
  - reflexivity.
  - reflexivity.
Defined.

(** * Further properties of the routes *)

Section VoteOutcomes.

Variable StringToNumber : string → option Z.
Variable castObjectId : string → option ObjectId.

Lemma voteRoute_unanswered_or_failed flt kind rq db o :
  serve (voteRoute StringToNumber castObjectId flt kind rq) db = o →
  (∃ code, out_status o = Some code ∧ code ∈ [200; 400; 404; 500])
  ∧ (out_status o ≠ Some 200 →
     votes (out_db o) = votes db ∧ posts (out_db o) = posts db
     ∧ comments (out_db o) = comments db)
  ∧ (out_status o = Some 200 → ∀ op, op ∈ out_log o → flt op = false).
Proof.
  intros Ho. route_run Ho.
  all: subst o; route_cbn.
  all: split; [eexists; split; [reflexivity|decide_it]|].
  all: split; [try done|].
  all: try (intros Hs; discriminate Hs).
  all: intros _ op Hin; split_elem_of; done.
Qed.

(** A request answered 200 met no storage failure: it ran as it would have
    with a storage layer that never fails. *)
Lemma voteRoute_200_noFaults flt kind rq db :
  out_status (serve (voteRoute StringToNumber castObjectId flt kind rq) db)
  = Some 200 →
  serve (voteRoute StringToNumber castObjectId flt kind rq) db
  = serve (voteRoute StringToNumber castObjectId noFaults kind rq) db.
Proof.
  intros Hs.
  remember (serve (voteRoute _ _ noFaults kind rq) db) as o2 eqn:H2.
  symmetry in H2.
  remember (serve (voteRoute _ _ flt kind rq) db) as o1 eqn:H1.
  symmetry in H1.
  unfold_routes; route_cbn. repeat route_step H1.
  all: subst o1; route_cbn; try discriminate Hs.
  all: repeat route_step H2.
  all: subst o2; reflexivity.
Qed.

Lemma alter_as_insert {A} (f : A → A) (m : gmap ObjectId A) i x :
  m !! i = Some x → alter f i m = <[i := f x]> m.
Proof.
  intros Hi. apply map_eq. intros j. rewrite lookup_alter, lookup_insert.
  case_decide; [subst; by rewrite Hi|done].
Qed.

Lemma alter_same {A} (f : A → A) (m : gmap ObjectId A) i x :
  m !! i = Some x → f x = x → alter f i m = m.
Proof.
  intros Hi Hx. rewrite (alter_as_insert f m i x Hi), Hx. by apply insert_id.
Qed.

Lemma setCounters_same kind id doc s :
  findTarget kind s id = Some doc →
  posts (setCounters kind id doc s) = posts s
  ∧ comments (setCounters kind id doc s) = comments s.
Proof.
  unfold findTarget, setCounters. intros Hl.
  destruct kind; cbn [posts comments]; (split; [|done]) || (split; [done|]).
  - destruct (posts s !! id) as [p|] eqn:Hp; [|done].
    injection Hl as <-. apply (alter_same _ _ _ p Hp). by destruct p.
  - destruct (comments s !! id) as [c|] eqn:Hc; [|done].
    injection Hl as <-. apply (alter_same _ _ _ c Hc). by destruct c.
Qed.

Lemma recalculated_users db author :
  recalculated db author
  = match users db !! author with
    | Some u =>
        <[author := setKarma u
            ((match aggregateKarma post_author post_upvotes post_downvotes
                                   author (posts db)
              with t :: _ => t | [] => 0 end)
             + (match aggregateKarma comment_author comment_upvotes
                                     comment_downvotes author (comments db)
                with t :: _ => t | [] => 0 end))]> (users db)
    | None => users db
    end.
Proof.
  unfold recalculated, specKarma. by rewrite !aggregateKarma_total.
Qed.

(** Without storage failure, the end of the transaction commits the ledger
    of the session, gives the target its new counters, and writes to the
    author the karma computed from the database as it was committed before
    the request. *)
Lemma settle_effect kind id loaded post db s log :
  findTarget kind s id = Some loaded →
  doc_author post = doc_author loaded →
  ∃ log',
    settle noFaults kind id loaded post (mkWorld db (Some s) log)
    = Ret () (mkWorld (mkStore (posts (setCounters kind id post s))
                               (comments (setCounters kind id post s))
                               (votes s)
                               (recalculated db (doc_author post)))
                      None log').
Proof.
  intros Hl Ha.
  destruct (settle _ _ _ _ _ _) as [[] w|e w] eqn:Hs.
  all: unfold settle in Hs; route_run Hs.
  all: try discriminate Hs.
  all: try (unfold findTarget in Hl;
            match goal with
            | H : posts _ !! _ = None |- _ =>
                rewrite H in Hl; cbn in Hl; discriminate Hl
            | H : comments _ !! _ = None |- _ =>
                rewrite H in Hl; cbn in Hl; discriminate Hl
            end).
  all: injection Hs as <-; eexists; f_equal; f_equal; f_equal.
  all: try (rewrite recalculated_users;
            match goal with
            | H : users _ !! _ = _ |- _ => rewrite H
            end; reflexivity).
  all: try (subst post;
            destruct (setCounters_same kind id loaded s Hl) as [H1 H2];
            by rewrite ?H1, ?H2).
  all: unfold findTarget, setCounters in *; cbn [posts comments].
  all: try reflexivity.
  all: match goal with
       | H : posts _ !! _ = Some _ |- _ =>
           rewrite H in Hl; cbn in Hl; injection Hl as <-;
           rewrite (alter_as_insert _ _ _ _ H)
       | H : comments _ !! _ = Some _ |- _ =>
           rewrite H in Hl; cbn in Hl; injection Hl as <-;
           rewrite (alter_as_insert _ _ _ _ H)
       end.
  all: try (match goal with
            | e : docOfPost ?p = ?d |- _ =>
                subst d; destruct p; cbn; symmetry; by apply insert_id
            | e : docOfComment ?c = ?d |- _ =>
                subst d; destruct c; cbn; symmetry; by apply insert_id
            end).
  all: f_equal; cbn; f_equal; repeat case_decide; congruence.
Qed.

(** The whole outcome of a vote request with a numeric value in
    {-1, 0, +1} on an existing target, without storage failure. *)
Lemma vote_numeric_run kind rq db id post previous requested :
  castObjectId (rq_id rq) = Some id →
  findTarget kind db id = Some post →
  rq_value rq = JNum requested →
  requested ∈ [-1; 0; 1] →
  previous ∈ [-1; 0; 1] →
  currentVote (rq_user rq, kind, id) (votes db) previous →
  let row := specTransition previous requested in
  let after :=
    mkDoc (doc_author post) (applyDelta (doc_upvotes post) row.1.2)
          (applyDelta (doc_downvotes post) row.2) in
  ∃ log,
    serve (voteRoute StringToNumber castObjectId noFaults kind rq) db
    = mkOutcome (Some (mkResponse 200 "Vote recorded" (Some after)))
        (mkStore (posts (setCounters kind id after db))
                 (comments (setCounters kind id after db))
                 (applyAction row.1.1 (rq_user rq, kind, id) (votes db))
                 (recalculated db (doc_author post)))
        log.
Proof.
  intros Hid Hpost Hval Hreq Hprev Hcur row after.
  destruct rq as [uid idParam value].
  cbn [rq_user rq_id rq_value] in *. subst value.
  assert (Hvalid : validVoteValue StringToNumber (JNum requested) = true).
  { clear -Hreq. split_elem_of; done. }
  set (k := (uid, kind, id)) in *.
  destruct (reconcile_table StringToNumber k previous requested post db db
              ([TargetFindById; StartSession; VoteFindOne]) Hreq Hprev Hcur)
    as [log1 Hrec].
  destruct (settle_effect kind id post after db
              (setVotes db (applyAction row.1.1 k (votes db))) log1)
    as (log2 & Hset).
  { by rewrite findTarget_setVotes. }
  { reflexivity. }
  exists log2.
  unfold serve, serveFrom, voteRoute, voteLoad, findByIdCall, voteInSession,
    voteTransaction, tryCatch, startTransaction, mbind, M_bind, mret, M_ret,
    await, getDb, getSession.
  cbn [rq_user rq_id rq_value noFaults w_db w_session w_log app].
  rewrite Hvalid. route_cbn. rewrite Hid. route_cbn. rewrite Hpost.
  route_cbn. fold k. rewrite Hrec. fold row. fold after. rewrite Hset.
  cbn [w_db w_log]. by destruct kind.
Qed.

(** What the [if (value === 0) ... else ...] block can do, for any value:
    the ledger is left alone, or the record of the key is deleted, or it is
    given the validated value, or a record with the validated value is
    appended when the key has none; each counter of the document is kept,
    decremented with a floor at zero, or incremented; and a value that is
    not a number leaves the document as it is. *)
Lemma reconcile_general k value post s db log :
  match reconcile StringToNumber noFaults k value post s
                  (Vote_findOne k (votes s)) (mkWorld db (Some s) log) with
  | Ret post' w' =>
      ∃ l' log',
        w' = mkWorld db (Some (setVotes s l')) log'
        ∧ doc_author post' = doc_author post
        ∧ doc_upvotes post'
          ∈ [doc_upvotes post; Z.max 0 (doc_upvotes post - 1);
             doc_upvotes post + 1]
        ∧ doc_downvotes post'
          ∈ [doc_downvotes post; Z.max 0 (doc_downvotes post - 1);
             doc_downvotes post + 1]
        ∧ ((∀ z, value ≠ JNum z) → post' = post)
        ∧ (l' = votes s
           ∨ (∃ i v, Vote_findOne k (votes s) = Some (i, v)
                     ∧ (l' = delete i (votes s)
                        ∨ ∃ z, validateVoteValue StringToNumber value = Some z
                               ∧ l' = <[i := setValue v z]> (votes s)))
           ∨ (Vote_findOne k (votes s) = None
              ∧ ∃ z, validateVoteValue StringToNumber value = Some z
                     ∧ l' = votes s ++ [mkVote k.1.1 k.1.2 k.2 z]))
  | Throw _ _ => True
  end.
Proof.
  destruct s as [ps cs vs us], post as [a u d]. cbn [votes].
  destruct (reconcile _ _ _ _ _ _ _ _) as [post' w'|e w'] eqn:Hr; [|done].
  unfold reconcile, Vote_saveExisting, Vote_saveNew, mbind, M_bind, mret,
    M_ret, await, getSession, putSession, throw in Hr.
  route_cbn. repeat route_step Hr.
  all: try discriminate Hr.
  all: injection Hr as <- <-; unfold setVotes; cbn [votes posts comments users].
  all: eexists _, _; split; [reflexivity|].
  all: unfold setUpvotes, setDownvotes;
    cbn [doc_author doc_upvotes doc_downvotes].
  all: destruct value as [| |b|z0|str]; cbn [strictEqNum] in *;
    rewrite ?andb_false_r; try discriminate.
  all: repeat case_bool_decide; cbn [doc_author doc_upvotes doc_downvotes andb].
  all: split; [reflexivity|]; split; [set_solver|]; split; [set_solver|].
  all: split;
    [intros Hn; first [reflexivity | exfalso; by eapply Hn]|eauto 10].
Qed.

(** A vote request answered 200, whatever its value and the storage
    failures in store for it: the target was found, the response carries the
    document with its new counters, and the database is the one before the
    request with the ledger write, the counters of the target, and the karma
    of the author recalculated from the database before the request. *)
Lemma voteRoute_committed flt kind rq db :
  out_status (serve (voteRoute StringToNumber castObjectId flt kind rq) db)
  = Some 200 →
  ∃ id post post' l' log,
    castObjectId (rq_id rq) = Some id
    ∧ findTarget kind db id = Some post
    ∧ doc_author post' = doc_author post
    ∧ doc_upvotes post'
      ∈ [doc_upvotes post; Z.max 0 (doc_upvotes post - 1);
         doc_upvotes post + 1]
    ∧ doc_downvotes post'
      ∈ [doc_downvotes post; Z.max 0 (doc_downvotes post - 1);
         doc_downvotes post + 1]
    ∧ ((∀ z, rq_value rq ≠ JNum z) → post' = post)
    ∧ (l' = votes db
       ∨ (∃ i v, Vote_findOne (rq_user rq, kind, id) (votes db) = Some (i, v)
                 ∧ (l' = delete i (votes db)
                    ∨ ∃ z, validateVoteValue StringToNumber (rq_value rq)
                           = Some z
                           ∧ l' = <[i := setValue v z]> (votes db)))
       ∨ (Vote_findOne (rq_user rq, kind, id) (votes db) = None
          ∧ ∃ z, validateVoteValue StringToNumber (rq_value rq) = Some z
                 ∧ l' = votes db ++ [mkVote (rq_user rq) kind id z]))
    ∧ serve (voteRoute StringToNumber castObjectId flt kind rq) db
      = mkOutcome (Some (mkResponse 200 "Vote recorded" (Some post')))
          (mkStore (posts (setCounters kind id post' db))
                   (comments (setCounters kind id post' db))
                   l' (recalculated db (doc_author post)))
          log.
Proof.
  intros Hs. pose proof (voteRoute_200_noFaults _ _ _ _ Hs) as E.
  rewrite E in *. clear E flt.
  destruct (validVoteValue StringToNumber (rq_value rq)) eqn:Hv;
    [|by rewrite invalid_value_rejected in Hs].
  destruct (castObjectId (rq_id rq)) as [id|] eqn:Hid;
    [|by rewrite malformed_id_server_error in Hs].
  destruct (findTarget kind db id) as [post|] eqn:Hp;
    [|by rewrite (missing_target_not_found _ _ _ _ _ _ id) in Hs].
  pose proof (reconcile_general (rq_user rq, kind, id) (rq_value rq) post db
                db [TargetFindById; StartSession; VoteFindOne]) as Hrec.
  revert Hs.
  unfold serve, serveFrom, voteRoute, voteLoad, findByIdCall, voteInSession,
    voteTransaction, tryCatch, startTransaction, abortTransaction, mbind,
    M_bind, mret, M_ret, await, getDb, getSession, throw.
  cbn [noFaults w_db w_session w_log app].
  rewrite Hv. route_cbn. rewrite Hid. route_cbn. rewrite Hp. route_cbn.
  destruct (reconcile _ _ _ _ _ _ _ _) as [post' w'|e w']; [|done].
  destruct Hrec as (l' & log1 & -> & Ha & Hu & Hd & Hn & Hl).
  destruct (settle_effect kind id post post' db (setVotes db l') log1)
    as (log2 & Hset).
  { by rewrite findTarget_setVotes. }
  { done. }
  rewrite Hset. cbn [w_db w_log out_status out_response fmap option_fmap
                     option_map status]. intros _.
  exists id, post, post', l', log2. rewrite Ha.
  repeat (split; [done|]). by destruct kind.
Qed.

(** The users after any vote request: as before, or with the karma of the
    author of the target recalculated from the database before the
    request. *)
Lemma voteRoute_users flt kind rq db o :
  serve (voteRoute StringToNumber castObjectId flt kind rq) db = o →
  users (out_db o) = users db
  ∨ ∃ id post,
      castObjectId (rq_id rq) = Some id
      ∧ findTarget kind db id = Some post
      ∧ users (out_db o) = recalculated db (doc_author post).
Proof.
  intros Ho. route_run Ho.
  all: subst o; route_cbn; try (left; reflexivity).
  all: right; eexists _, _; split; [reflexivity|]; split; [eassumption|].
  all: rewrite recalculated_users.
  all: match goal with
       | Hd : findTarget _ _ _ = Some ?d |- _ =>
           repeat match goal with
                  | |- context [doc_author ?D] =>
                      lazymatch D with d => fail | _ => idtac end;
                      replace (doc_author D) with (doc_author d) in *
                        by (unfold setUpvotes, setDownvotes;
                            repeat case_match; reflexivity)
                  end
       end.
  all: match goal with
       | H : users _ !! _ = Some _ |- _ => rewrite H
       end; reflexivity.
Qed.

Lemma findTarget_committed kind id d db l u kind' id' :
  findTarget kind'
             (mkStore (posts (setCounters kind id d db))
                      (comments (setCounters kind id d db)) l u) id'
  = if decide (kind' = kind ∧ id' = id)
    then (λ old, mkDoc (doc_author old) (doc_upvotes d) (doc_downvotes d))
           <$> findTarget kind db id
    else findTarget kind' db id'.
Proof.
  unfold findTarget, setCounters.
  destruct kind, kind'; cbn [posts comments]; case_decide as Hk;
    try (destruct Hk as [? ?]; discriminate); try reflexivity.
  - destruct Hk as [_ ->]. rewrite lookup_alter_eq.
    by destruct (posts db !! id).
  - rewrite lookup_alter_ne; [done|]. intros ->. by apply Hk.
  - destruct Hk as [_ ->]. rewrite lookup_alter_eq.
    by destruct (comments db !! id).
  - rewrite lookup_alter_ne; [done|]. intros ->. by apply Hk.
Qed.

(** X1. A vote request is always answered, with 200, 400, 404 or 500, and
    a request that is not answered 200 leaves the ledger, the posts and the
    comments exactly as they were, whatever its value and whatever storage
    call fails. *)
Theorem vote_not_answered_200_changes_nothing flt kind rq db :
  let o := serve (voteRoute StringToNumber castObjectId flt kind rq) db in
  (∃ code, out_status o = Some code ∧ code ∈ [200; 400; 404; 500])
  ∧ (out_status o ≠ Some 200 →
     votes (out_db o) = votes db ∧ posts (out_db o) = posts db
     ∧ comments (out_db o) = comments db).
Proof.
  intros o.
  destruct (voteRoute_unanswered_or_failed flt kind rq db o eq_refl)
    as (Hcode & Hfail & _).
  by split.
Qed.

(** X2. A vote request is answered 400 exactly when [Number(value)] is
    not 1, 0 or -1; the target, the voter and the storage layer play no part
    in it. *)
Theorem vote_answered_400_iff_invalid flt kind rq db :
  out_status (serve (voteRoute StringToNumber castObjectId flt kind rq) db)
  = Some 400
  ↔ validVoteValue StringToNumber (rq_value rq) = false.
Proof.
  split.
  - intros Hs. destruct (validVoteValue _ _) eqn:Hv; [|done]. exfalso.
    remember (serve _ db) as o eqn:Ho. symmetry in Ho.
    route_run Ho. all: by subst o.
  - intros Hv. by rewrite invalid_value_rejected.
Qed.

(** X3. No vote request, whatever its value and whatever storage call
    fails, makes a counter negative: when every counter of the database is
    at least zero before the request, every counter is at least zero after
    it. *)
Theorem vote_keeps_counters_nonnegative flt kind rq db :
  nonNegative db →
  nonNegative
    (out_db (serve (voteRoute StringToNumber castObjectId flt kind rq) db)).
Proof.
  intros Hnn.
  destruct (decide (out_status
                      (serve (voteRoute StringToNumber castObjectId flt kind
                                        rq) db) = Some 200)) as [Hs|Hs].
  - destruct (voteRoute_committed flt kind rq db Hs)
      as (id & post & post' & l' & log & _ & Hp & _ & Hu & Hd & _ & _ & ->).
    cbn [out_db]. intros kind' id' doc. rewrite findTarget_committed.
    destruct (Hnn kind id post Hp) as [Hup Hdown].
    case_decide; [|by apply Hnn].
    rewrite Hp. cbn. intros [= <-]. cbn. split.
    + clear -Hu Hup. split_elem_of; lia.
    + clear -Hd Hdown. split_elem_of; lia.
  - destruct (voteRoute_unanswered_or_failed flt kind rq db _ eq_refl)
      as (_ & Hfail & _).
    destruct (Hfail Hs) as (_ & Hposts & Hcomments).
    intros kind' id' doc Hdoc. apply (Hnn kind' id').
    revert Hdoc. unfold findTarget. by rewrite Hposts, Hcomments.
Qed.

(** Facts on the records of the other keys *)

Lemma filter_other_delete (P : Vote → Prop) `{∀ v, Decision (P v)}
    (l : list Vote) (i : nat) v :
  l !! i = Some v → ¬ P v → filter P (delete i l) = filter P l.
Proof.
  intros Hi Hv. rewrite delete_take_drop.
  rewrite <- (take_drop_middle l i v Hi) at 3.
  rewrite !filter_app, filter_cons_False; done.
Qed.

Lemma filter_other_insert (P : Vote → Prop) `{∀ v, Decision (P v)}
    (l : list Vote) (i : nat) v v' :
  l !! i = Some v → ¬ P v → ¬ P v' → filter P (<[i := v']> l) = filter P l.
Proof.
  intros Hi Hv Hv'.
  rewrite <- (take_drop_middle l i v Hi) at 2.
  rewrite insert_take_drop by (by eapply lookup_lt_Some).
  rewrite !filter_app, !filter_cons_False; done.
Qed.

Lemma filter_other_app (P : Vote → Prop) `{∀ v, Decision (P v)}
    (l : list Vote) v :
  ¬ P v → filter P (l ++ [v]) = filter P l.
Proof.
  intros Hv. rewrite filter_app, filter_cons_False by done.
  by rewrite filter_nil, app_nil_r.
Qed.

(** X4. A vote request touches one key of the ledger and one target: the
    records of every other (voter, kind, target) are the same, in the same
    order, and every other post or comment has the same document; this
    holds for any value and any storage failure. *)
Theorem vote_touches_one_key_one_target flt kind rq db :
  let o := serve (voteRoute StringToNumber castObjectId flt kind rq) db in
  (∀ k, (∀ id, castObjectId (rq_id rq) = Some id →
               k ≠ (rq_user rq, kind, id)) →
        filter (λ v, voteKey v = k) (votes (out_db o))
        = filter (λ v, voteKey v = k) (votes db))
  ∧ (∀ kind' id',
       (∀ id, castObjectId (rq_id rq) = Some id →
              (kind', id') ≠ (kind, id)) →
       findTarget kind' (out_db o) id' = findTarget kind' db id').
Proof.
  intros o. subst o.
  destruct (decide (out_status
                      (serve (voteRoute StringToNumber castObjectId flt kind
                                        rq) db) = Some 200)) as [Hs|Hs].
  - destruct (voteRoute_committed flt kind rq db Hs)
      as (id & post & post' & l' & log & Hid & Hp & _ & _ & _ & _ & Hl & ->).
    cbn [out_db votes]. split.
    + intros k Hk. specialize (Hk id Hid).
      destruct Hl as [->|[(i & v & Hf & [->|(z & _ & ->)])|(Hf & z & _ & ->)]].
      * done.
      * apply Vote_findOne_Some in Hf as [Hi Hkey].
        apply (filter_other_delete _ _ _ v Hi). congruence.
      * apply Vote_findOne_Some in Hf as [Hi Hkey].
        apply (filter_other_insert _ _ _ v _ Hi); [congruence|].
        unfold voteKey in *. cbn. congruence.
      * apply filter_other_app. unfold voteKey. cbn. congruence.
    + intros kind' id' Hne. rewrite findTarget_committed.
      case_decide as Hk; [|done]. destruct Hk as [-> ->].
      by destruct (Hne id Hid).
  - destruct (voteRoute_unanswered_or_failed flt kind rq db _ eq_refl)
      as (_ & Hfail & _).
    destruct (Hfail Hs) as (Hvotes & Hposts & Hcomments).
    split; [intros; by rewrite Hvotes|].
    intros kind' id' _. unfold findTarget. by rewrite Hposts, Hcomments.
Qed.

(** X5. The karma written by a vote request answered 200 is the karma of
    the database before the request: the users after the request are those
    before it with the karma of the author of the target set to the sum, over
    the posts and comments as they were before the request, of upvotes minus
    downvotes. The vote that was just cast is not counted, and no other user
    is written. *)
Theorem vote_writes_karma_of_previous_state flt kind rq db :
  let o := serve (voteRoute StringToNumber castObjectId flt kind rq) db in
  out_status o = Some 200 →
  ∃ id post,
    castObjectId (rq_id rq) = Some id
    ∧ findTarget kind db id = Some post
    ∧ users (out_db o) = recalculated db (doc_author post)
    ∧ (∀ u, users db !! doc_author post = Some u →
            users (out_db o) !! doc_author post
            = Some (mkUser (specKarma db (doc_author post))))
    ∧ (∀ uid, uid ≠ doc_author post →
              users (out_db o) !! uid = users db !! uid).
Proof.
  intros o Hs. subst o.
  destruct (voteRoute_committed flt kind rq db Hs)
    as (id & post & post' & l' & log & Hid & Hp & _ & _ & _ & _ & _ & ->).
  exists id, post. cbn [out_db users]. unfold recalculated.
  repeat (split; [done|]). split.
  - intros u ->. by rewrite lookup_insert_eq.
  - intros uid Hne. destruct (users db !! doc_author post); [|done].
    by rewrite lookup_insert_ne.
Qed.

(** X6. A vote request whose value is not a number never changes a
    counter: the posts and the comments after the request are those before
    it, also when the request is answered 200 and has written the ledger. *)
Theorem non_numeric_vote_leaves_counters flt kind rq db :
  (∀ z, rq_value rq ≠ JNum z) →
  let o := serve (voteRoute StringToNumber castObjectId flt kind rq) db in
  posts (out_db o) = posts db ∧ comments (out_db o) = comments db.
Proof.
  intros Hn o. subst o.
  destruct (decide (out_status
                      (serve (voteRoute StringToNumber castObjectId flt kind
                                        rq) db) = Some 200)) as [Hs|Hs].
  - destruct (voteRoute_committed flt kind rq db Hs)
      as (id & post & post' & l' & log & _ & Hp & _ & _ & _ & Hsame & _ & ->).
    rewrite (Hsame Hn). cbn [out_db posts comments].
    apply (setCounters_same _ _ _ _ Hp).
  - destruct (voteRoute_unanswered_or_failed flt kind rq db _ eq_refl)
      as (_ & Hfail & _).
    by destruct (Hfail Hs) as (_ & Hposts & Hcomments).
Qed.

(** X7. When a vote request is served with no other request in between
    and is answered 200, the document it sends back is the target as the
    request left it in the database. (A request whose transaction runs after
    another request has committed sends back the counters it computed from
    the document it had loaded: see [interleaved_response_is_stale].) *)
Theorem vote_response_shows_stored_target flt kind rq db :
  let o := serve (voteRoute StringToNumber castObjectId flt kind rq) db in
  out_status o = Some 200 →
  ∃ id doc,
    castObjectId (rq_id rq) = Some id
    ∧ out_response o = Some (mkResponse 200 "Vote recorded" (Some doc))
    ∧ findTarget kind (out_db o) id = Some doc.
Proof.
  intros o Hs. subst o.
  destruct (voteRoute_committed flt kind rq db Hs)
    as (id & post & post' & l' & log & Hid & Hp & Ha & _ & _ & _ & _ & ->).
  exists id, post'. cbn [out_db out_response]. repeat (split; [done|]).
  rewrite findTarget_committed, decide_True by done. rewrite Hp. cbn.
  rewrite <- Ha. by destruct post'.
Qed.

(** Counting the records of a target *)

Ltac refute_keys :=
  exfalso;
  repeat match goal with H : _ ∧ _ |- _ => destruct H end;
  first [ congruence
        | match goal with
          | H : ¬ _ |- _ => apply H; repeat split; congruence
          end ].

Lemma countVotes_app kind id z l v :
  countVotes kind id z (l ++ [v])
  = (countVotes kind id z l
     + if decide (vote_targetType v = kind ∧ vote_target v = id
                  ∧ vote_value v = z) then 1 else 0)%nat.
Proof.
  unfold countVotes. rewrite filter_app, length_app. f_equal.
  rewrite filter_cons, filter_nil. by case_decide.
Qed.

Lemma countVotes_delete kind id z l i v :
  l !! i = Some v →
  countVotes kind id z l
  = (countVotes kind id z (delete i l)
     + if decide (vote_targetType v = kind ∧ vote_target v = id
                  ∧ vote_value v = z) then 1 else 0)%nat.
Proof.
  intros Hi. unfold countVotes. rewrite delete_take_drop.
  rewrite <- (take_drop_middle l i v Hi) at 1.
  rewrite !filter_app, filter_cons, !length_app.
  case_decide; cbn [length]; lia.
Qed.

Lemma countVotes_insert kind id z l i v v' :
  l !! i = Some v →
  (countVotes kind id z (<[i := v']> l)
   + if decide (vote_targetType v = kind ∧ vote_target v = id
                ∧ vote_value v = z) then 1 else 0)%nat
  = (countVotes kind id z l
     + if decide (vote_targetType v' = kind ∧ vote_target v' = id
                  ∧ vote_value v' = z) then 1 else 0)%nat.
Proof.
  intros Hi. unfold countVotes.
  rewrite <- (take_drop_middle l i v Hi) at 2.
  rewrite insert_take_drop by (by eapply lookup_lt_Some).
  rewrite !filter_app, !filter_cons, !length_app.
  repeat case_decide; cbn [length]; lia.
Qed.

(** The ledger value of a key in a ledger that holds only +1 and -1. *)
Lemma signed_currentVote k l :
  signedVotes l →
  ∃ previous, previous ∈ [-1; 0; 1] ∧ currentVote k l previous.
Proof.
  intros Hs. unfold currentVote.
  destruct (Vote_findOne k l) as [[i v]|] eqn:Hf.
  - apply Vote_findOne_Some in Hf as [Hi _].
    unfold signedVotes in Hs. rewrite Forall_lookup in Hs.
    destruct (Hs i v Hi) as [Hv|Hv]; exists (vote_value v); rewrite Hv.
    + split; [|done]. do 2 right. left.
    + split; [|done]. left.
  - exists 0. split; [|done]. right. left.
Qed.

Lemma validVoteValue_JNum z :
  validVoteValue StringToNumber (JNum z) = true ↔ z ∈ [-1; 0; 1].
Proof.
  unfold validVoteValue. cbn. rewrite bool_decide_eq_true.
  rewrite !elem_of_cons, !elem_of_nil. tauto.
Qed.

(** X8. Votes with numeric values keep the counters equal to the ledger:
    when the ledger holds only +1 and -1 and every target shows, in
    [upvotes] and [downvotes], the number of +1 and of -1 records the ledger
    holds for it, a vote request whose value is a number leaves the database
    in such a state again, whatever the number and whatever storage call
    fails. *)
Theorem numeric_vote_keeps_tallies flt kind rq db z :
  rq_value rq = JNum z →
  signedVotes (votes db) →
  tallied db →
  let o := serve (voteRoute StringToNumber castObjectId flt kind rq) db in
  signedVotes (votes (out_db o)) ∧ tallied (out_db o).
Proof.
  intros Hval Hsigned Htal o. subst o.
  split; [by eapply integer_vote_keeps_signed|].
  destruct (decide (out_status
                      (serve (voteRoute StringToNumber castObjectId flt kind
                                        rq) db) = Some 200)) as [Hs|Hs].
  2:{ destruct (voteRoute_unanswered_or_failed flt kind rq db _ eq_refl)
        as (_ & Hfail & _).
      destruct (Hfail Hs) as (Hvotes & Hposts & Hcomments).
      intros kind' id' doc Hdoc. rewrite Hvotes. apply Htal.
      revert Hdoc. unfold findTarget. by rewrite Hposts, Hcomments. }
  destruct (voteRoute_committed flt kind rq db Hs)
    as (id & post & _ & _ & _ & Hid & Hp & _).
  assert (Hz : z ∈ [-1; 0; 1]).
  { apply validVoteValue_JNum. rewrite <- Hval.
    destruct (validVoteValue _ _) eqn:Hv; [done|].
    by rewrite invalid_value_rejected in Hs. }
  destruct (signed_currentVote (rq_user rq, kind, id) (votes db) Hsigned)
    as (previous & Hprev & Hcur).
  rewrite (voteRoute_200_noFaults _ _ _ _ Hs).
  destruct (vote_numeric_run kind rq db id post previous z Hid Hp Hval Hz
              Hprev Hcur) as [log ->].
  cbn [out_db]. destruct (Htal kind id post Hp) as [Hup Hdown].
  set (k := (rq_user rq, kind, id)) in *.
  intros kind' id' doc. rewrite findTarget_committed. cbn [votes].
  unfold currentVote in Hcur.
  destruct (Vote_findOne k (votes db)) as [[i v]|] eqn:Hf.
  - destruct Hcur as [Hv Hnz].
    destruct (Vote_findOne_Some _ _ _ _ Hf) as [Hi Hkey].
    assert (Hkind : vote_targetType v = kind) by (by injection Hkey).
    assert (Htarget : vote_target v = id) by (by injection Hkey).
    assert (Huser : vote_user v = rq_user rq) by (by injection Hkey).
    pose proof (countVotes_delete kind' id' 1 _ _ _ Hi) as Hd1.
    pose proof (countVotes_delete kind' id' (-1) _ _ _ Hi) as Hd2.
    pose proof (countVotes_insert kind' id' 1 _ _ _ (setValue v 1) Hi) as Hi1.
    pose proof (countVotes_insert kind' id' (-1) _ _ _ (setValue v 1) Hi)
      as Hi2.
    pose proof (countVotes_insert kind' id' 1 _ _ _ (setValue v (-1)) Hi)
      as Hi3.
    pose proof (countVotes_insert kind' id' (-1) _ _ _ (setValue v (-1)) Hi)
      as Hi4.
    unfold setValue in Hi1, Hi2, Hi3, Hi4.
    cbn [vote_targetType vote_target vote_value] in *.
    rewrite Hkind, Htarget, Huser, Hv in *.
    destruct (decide (kind' = kind ∧ id' = id)) as [[Hk1 Hk2]|Hk].
    + subst kind' id'. rewrite Hp. cbn. intros [= <-].
      cbn [doc_upvotes doc_downvotes]. rewrite Hup, Hdown.
      clear Hup Hdown Hp Htal.
      split_elem_of; try done.
      all: unfold specTransition, applyDelta; compute_tests;
        cbn [fst snd applyAction]; compute_tests; rewrite ?Hf.
      all: subst k; cbn [fst snd].
      all: repeat case_decide; try lia; refute_keys.
    + intros Hdoc. destruct (Htal kind' id' doc Hdoc) as [-> ->].
      clear Hup Hdown Hp Htal Hdoc.
      split_elem_of; try done.
      all: unfold specTransition; compute_tests;
        cbn [fst snd applyAction]; rewrite ?Hf.
      all: subst k; cbn [fst snd].
      all: repeat case_decide; try lia; refute_keys.
  - subst previous.
    pose proof (countVotes_app kind' id' 1 (votes db)
                  (mkVote (rq_user rq) kind id 1)) as Ha1.
    pose proof (countVotes_app kind' id' (-1) (votes db)
                  (mkVote (rq_user rq) kind id 1)) as Ha2.
    pose proof (countVotes_app kind' id' 1 (votes db)
                  (mkVote (rq_user rq) kind id (-1))) as Ha3.
    pose proof (countVotes_app kind' id' (-1) (votes db)
                  (mkVote (rq_user rq) kind id (-1))) as Ha4.
    cbn [vote_targetType vote_target vote_value] in *.
    destruct (decide (kind' = kind ∧ id' = id)) as [[Hk1 Hk2]|Hk].
    + subst kind' id'. rewrite Hp. cbn. intros [= <-].
      cbn [doc_upvotes doc_downvotes]. rewrite Hup, Hdown.
      clear Hup Hdown Hp Htal.
      split_elem_of; try done.
      all: unfold specTransition, applyDelta; compute_tests;
        cbn [fst snd applyAction]; compute_tests.
      all: subst k; cbn [fst snd].
      all: repeat case_decide; try lia; refute_keys.
    + intros Hdoc. destruct (Htal kind' id' doc Hdoc) as [-> ->].
      clear Hup Hdown Hp Htal Hdoc.
      split_elem_of; try done.
      all: unfold specTransition; compute_tests; cbn [fst snd applyAction].
      all: subst k; cbn [fst snd].
      all: repeat case_decide; try lia; refute_keys.
Qed.

End VoteOutcomes.
(** A vote on top of a first vote *)

Lemma Vote_findOne_appended k l z :
  Vote_findOne k l = None →
  Vote_findOne k (l ++ [mkVote k.1.1 k.1.2 k.2 z])
  = Some (length l, mkVote k.1.1 k.1.2 k.2 z).
Proof.
  unfold Vote_findOne. intros Hf. rewrite (list_find_app_r _ _ _ Hf).
  cbn. rewrite decide_True; [done|]. by destruct k as [[u t] g].
Qed.

Lemma delete_appended (l : list Vote) v : delete (length l) (l ++ [v]) = l.
Proof. by rewrite delete_middle, app_nil_r. Qed.

Lemma insert_appended (l : list Vote) v v' :
  <[length l := v']> (l ++ [v]) = l ++ [v'].
Proof.
  replace (length l) with (length l + 0)%nat by lia. by rewrite insert_app_r.
Qed.

Lemma setCounters_over kind id d1 d2 db l u :
  let db1 := mkStore (posts (setCounters kind id d1 db))
                     (comments (setCounters kind id d1 db)) l u in
  posts (setCounters kind id d2 db1) = posts (setCounters kind id d2 db)
  ∧ comments (setCounters kind id d2 db1)
    = comments (setCounters kind id d2 db).
Proof.
  unfold setCounters. destruct kind; cbn [posts comments]; split; try done.
  - apply map_eq. intros j. rewrite !lookup_alter.
    destruct (decide (id = j)) as [->|]; [|done].
    rewrite decide_True by done. by destruct (posts db !! j).
  - apply map_eq. intros j. rewrite !lookup_alter.
    destruct (decide (id = j)) as [->|]; [|done].
    rewrite decide_True by done. by destruct (comments db !! j).
Qed.

Section VoteSequences.

Variable StringToNumber : string → option Z.
Variable castObjectId : string → option ObjectId.

(** X9. The last vote wins. A voter without a vote on a target whose
    counters are not negative votes +1 or -1 and then sends a second value,
    -1, 0 or +1; no storage call fails. The ledger, the posts and the
    comments are then what the second value alone would have produced; in
    particular, retracting (second value 0) gives back the ledger and the
    counters of before the first vote. *)
Theorem last_vote_wins kind uid idParam db id post z z' :
  castObjectId idParam = Some id →
  findTarget kind db id = Some post →
  Vote_findOne (uid, kind, id) (votes db) = None →
  0 ≤ doc_upvotes post →
  0 ≤ doc_downvotes post →
  z ∈ [1; -1] →
  z' ∈ [-1; 0; 1] →
  let vote value d :=
    out_db (serve (voteRoute StringToNumber castObjectId noFaults kind
                             (mkVoteRequest uid idParam (JNum value))) d) in
  let twice := vote z' (vote z db) in
  let once := vote z' db in
  (votes twice = votes once ∧ posts twice = posts once
   ∧ comments twice = comments once)
  ∧ (z' = 0 →
     votes twice = votes db ∧ posts twice = posts db
     ∧ comments twice = comments db).
Proof.
  intros Hid Hp Hnone Hup Hdown Hz Hz' vote twice once.
  set (k := (uid, kind, id)).
  assert (Hz1 : z ∈ [-1; 0; 1]) by (clear -Hz; split_elem_of; decide_it).
  assert (H0 : (0 : Z) ∈ [-1; 0; 1]) by decide_it.
  destruct (vote_numeric_run StringToNumber castObjectId kind
              (mkVoteRequest uid idParam (JNum z)) db id
              post 0 z Hid Hp eq_refl Hz1 H0) as [log1 E1].
  { unfold currentVote. cbn [rq_user]. by rewrite Hnone. }
  destruct (vote_numeric_run StringToNumber castObjectId kind
              (mkVoteRequest uid idParam (JNum z')) db id
              post 0 z' Hid Hp eq_refl Hz' H0) as [log3 E3].
  { unfold currentVote. cbn [rq_user]. by rewrite Hnone. }
  cbn [rq_user] in E1, E3. fold k in E1, E3.
  assert (Hcreated : applyAction (specTransition 0 z).1.1 k (votes db)
                     = votes db ++ [mkVote uid kind id z]).
  { clear -Hz. split_elem_of; reflexivity. }
  rewrite Hcreated in E1.
  pose proof (Vote_findOne_appended k (votes db) z Hnone) as Hfound.
  cbn [fst snd k] in Hfound. fold k in Hfound.
  set (a1 := mkDoc (doc_author post)
                   (applyDelta (doc_upvotes post) (specTransition 0 z).1.2)
                   (applyDelta (doc_downvotes post) (specTransition 0 z).2))
    in *.
  set (db1 := out_db (serve (voteRoute StringToNumber castObjectId noFaults
                                       kind (mkVoteRequest uid idParam
                                                           (JNum z))) db)).
  assert (Hp1 : findTarget kind db1 id = Some a1).
  { subst db1. rewrite E1. cbn [out_db].
    rewrite findTarget_committed, decide_True by done. by rewrite Hp. }
  assert (Hv1 : votes db1 = votes db ++ [mkVote uid kind id z]).
  { subst db1. by rewrite E1. }
  destruct (vote_numeric_run StringToNumber castObjectId kind
              (mkVoteRequest uid idParam (JNum z')) db1 id
              a1 z z' Hid Hp1 eq_refl Hz' Hz1) as [log2 E2].
  { unfold currentVote. cbn [rq_user]. fold k. rewrite Hv1, Hfound.
    split; [done|]. clear -Hz. split_elem_of; done. }
  cbn [rq_user] in E2. fold k in E2.
  assert (Htwice : twice = out_db (serve (voteRoute StringToNumber castObjectId
                     noFaults kind (mkVoteRequest uid idParam (JNum z')))
                     db1)) by reflexivity.
  assert (Honce : once = out_db (serve (voteRoute StringToNumber castObjectId
                     noFaults kind (mkVoteRequest uid idParam (JNum z')))
                     db)) by reflexivity.
  rewrite E2 in Htwice. rewrite E3 in Honce. cbn [out_db] in Htwice, Honce.
  assert (Hdb1 : db1 = mkStore (posts (setCounters kind id a1 db))
                         (comments (setCounters kind id a1 db))
                         (votes db ++ [mkVote uid kind id z])
                         (recalculated db (doc_author post))).
  { subst db1. by rewrite E1. }
  assert (Hcore :
    votes twice = votes once ∧ posts twice = posts once
    ∧ comments twice = comments once).
  { rewrite Htwice, Honce. cbn [votes posts comments]. rewrite Hv1.
    rewrite Hdb1 at 1 2.
    destruct (setCounters_over kind id a1
                (mkDoc (doc_author a1)
                   (applyDelta (doc_upvotes a1) (specTransition z z').1.2)
                   (applyDelta (doc_downvotes a1) (specTransition z z').2))
                db (votes db ++ [mkVote uid kind id z])
                (recalculated db (doc_author post))) as [-> ->].
    subst a1. cbn [doc_author doc_upvotes doc_downvotes].
    clear -Hz Hz' Hup Hdown Hfound.
    split_elem_of.
    all: unfold specTransition, applyDelta; compute_tests;
      cbn [fst snd applyAction]; compute_tests; rewrite ?Hfound;
      rewrite ?delete_appended, ?insert_appended;
      cbn [setValue vote_user vote_targetType vote_target].
    all: repeat split; try reflexivity.
    all: f_equal; f_equal; cbn [fst snd]; compute_tests; cbn [fst snd];
      f_equal; lia. }
  split; [exact Hcore|].
  intros ->. destruct Hcore as (-> & -> & ->).
  rewrite Honce. cbn [votes posts comments].
  split; [reflexivity|].
  replace (mkDoc (doc_author post)
                 (applyDelta (doc_upvotes post) (specTransition 0 0).1.2)
                 (applyDelta (doc_downvotes post) (specTransition 0 0).2))
    with post.
  - apply (setCounters_same _ _ _ _ Hp).
  - destruct post as [a u d]. unfold specTransition, applyDelta.
    compute_tests. cbn. compute_tests. f_equal; lia.
Qed.

Lemma Vote_findOne_other k l v :
  Vote_findOne k l = None → voteKey v ≠ k →
  Vote_findOne k (l ++ [v]) = None.
Proof.
  unfold Vote_findOne. intros Hl Hv. rewrite (list_find_app_r _ _ _ Hl).
  cbn. by rewrite decide_False.
Qed.

(** X10. Votes sent one after the other all count. Voters who have no
    vote on a target send +1 to it, each request being served before the
    next arrives, and no storage call fails: the target's upvotes rise by
    the number of voters, its downvotes stay, and the ledger gains one +1
    record per voter, in the order of the requests. *)
Theorem votes_in_sequence_all_count kind idParam db id post voters :
  castObjectId idParam = Some id →
  findTarget kind db id = Some post →
  NoDup voters →
  (∀ uid, uid ∈ voters → Vote_findOne (uid, kind, id) (votes db) = None) →
  let db' :=
    voteAll StringToNumber castObjectId kind idParam (JNum 1) voters db in
  findTarget kind db' id
  = Some (mkDoc (doc_author post)
                (doc_upvotes post + Z.of_nat (length voters))
                (doc_downvotes post))
  ∧ votes db' = votes db ++ ((λ uid, mkVote uid kind id 1) <$> voters).
Proof.
  intros Hid. revert db post.
  induction voters as [|uid voters IH]; intros db post Hp Hnd Hfresh.
  - cbn. rewrite Z.add_0_r, app_nil_r. split; [|done].
    rewrite Hp. by destruct post.
  - apply NoDup_cons in Hnd as [Hnotin Hnd].
    assert (H1 : (1 : Z) ∈ [-1; 0; 1]) by decide_it.
    assert (H0 : (0 : Z) ∈ [-1; 0; 1]) by decide_it.
    destruct (vote_numeric_run StringToNumber castObjectId kind
                (mkVoteRequest uid idParam (JNum 1)) db id post 0 1 Hid Hp
                eq_refl H1 H0) as [log E].
    { unfold currentVote. cbn [rq_user].
      rewrite (Hfresh uid) by (apply elem_of_cons; by left). done. }
    cbn [rq_user] in E.
    change (specTransition 0 1) with (ActCreate 1, 1, 0) in E.
    cbn [fst snd applyAction] in E. unfold applyDelta in E.
    change (bool_decide (1 < 0)) with false in E.
    change (bool_decide (0 < 0)) with false in E. cbn iota in E.
    unfold voteAll. cbn [foldl]. rewrite E. cbn [out_db].
    set (after := mkDoc (doc_author post) (doc_upvotes post + 1)
                        (doc_downvotes post + 0)) in *.
    set (db1 := mkStore _ _ _ _).
    destruct (IH db1 after) as [IHp IHv].
    + subst db1. rewrite findTarget_committed, decide_True by done.
      by rewrite Hp.
    + exact Hnd.
    + intros uid' Hin. subst db1. cbn [votes].
      apply Vote_findOne_other.
      * apply Hfresh, elem_of_cons. by right.
      * cbn. intros [= ->]. done.
    + unfold voteAll in IHp, IHv. split.
      * rewrite IHp. subst after. cbn [doc_author doc_upvotes doc_downvotes].
        f_equal. f_equal; [|lia]. cbn [length]. lia.
      * rewrite IHv. subst db1. cbn [votes]. by rewrite <- app_assoc.
Qed.

End VoteSequences.

(** ** The delete routes *)

Section DeleteOutcomes.

Variable StringToNumber : string → option Z.
Variable castObjectId : string → option ObjectId.

(** X11. A delete route always answers, with 200, 403, 404 or 500; when it
    answers 403 or 404 the database is as before; and whatever it answers,
    whichever storage call fails, the users are as before: the karma of the
    author is not recalculated when a post or comment goes. *)
Theorem delete_refused_changes_nothing kind flt uid idParam db :
  let o := serve (deleteRoute castObjectId kind flt uid idParam) db in
  (∃ r, out_response o = Some r ∧ status r ∈ [200; 403; 404; 500])
  ∧ (out_status o = Some 403 ∨ out_status o = Some 404 → out_db o = db)
  ∧ (out_status o = Some 403 →
     ∃ id doc, castObjectId idParam = Some id
               ∧ findTarget kind db id = Some doc ∧ doc_author doc ≠ uid)
  ∧ users (out_db o) = users db.
Proof.
  intros o. remember (serve _ db) as o' eqn:Ho. symmetry in Ho. subst o.
  unfold deleteRoute in Ho. destruct kind.
  all: unfold out_status; unfold_deletes; delete_cbn; repeat delete_step Ho.
  all: subst o'; delete_cbn; cbn [status fmap option_fmap option_map].
  all: try match goal with
           | e : StorageError = CastError |- _ => discriminate e
           end.
  all: repeat split;
    try (eexists; split; [reflexivity|cbn [status]; decide_it]);
    try (intros [[=]|[=]]; reflexivity);
    try (intros [=]).
  all: try (by destruct (flt VoteDeleteMany), (flt CommentDeleteMany)).
  all: try (by destruct (flt VoteDeleteMany)).
  - exists o, (docOfPost p). cbn [findTarget]. rewrite Heqo0.
    repeat split. cbn. intros Hu. by rewrite bool_decide_eq_false in Heqb0.
  - exists o, (docOfComment c). cbn [findTarget]. rewrite Heqo0.
    repeat split. cbn. intros Hu. by rewrite bool_decide_eq_false in Heqb0.
Qed.

(** What the post route does once the author is recognised. *)
Lemma deletePost_effect flt uid idParam db id p :
  castObjectId idParam = Some id →
  posts db !! id = Some p →
  post_author p = uid →
  flt TargetFindById = false →
  let o := serve (deletePost castObjectId flt uid idParam) db in
  out_status o
  = Some (if flt TargetDeleteOne || flt CommentDeleteMany
             || flt VoteDeleteMany then 500 else 200)
  ∧ posts (out_db o)
    = (if flt TargetDeleteOne then posts db else delete id (posts db))
  ∧ comments (out_db o)
    = (if flt CommentDeleteMany then comments db
       else Comment_deleteMany id (comments db))
  ∧ votes (out_db o)
    = (if flt VoteDeleteMany then votes db
       else Vote_deleteMany PostT id (votes db))
  ∧ users (out_db o) = users db.
Proof.
  intros Hid Hp Hu Hf o. subst o.
  unfold out_status; unfold_deletes; delete_cbn.
  rewrite Hf, Hid. delete_cbn. rewrite Hp, bool_decide_true by done.
  delete_cbn.
  destruct (flt TargetDeleteOne), (flt CommentDeleteMany),
    (flt VoteDeleteMany); delete_cbn; cbn; done.
Qed.

(** The same for the comment route, which issues two calls. *)
Lemma deleteComment_effect flt uid idParam db id c :
  castObjectId idParam = Some id →
  comments db !! id = Some c →
  comment_author c = uid →
  flt TargetFindById = false →
  let o := serve (deleteComment castObjectId flt uid idParam) db in
  out_status o
  = Some (if flt TargetDeleteOne || flt VoteDeleteMany then 500 else 200)
  ∧ posts (out_db o) = posts db
  ∧ comments (out_db o)
    = (if flt TargetDeleteOne then comments db else delete id (comments db))
  ∧ votes (out_db o)
    = (if flt VoteDeleteMany then votes db
       else Vote_deleteMany CommentT id (votes db))
  ∧ users (out_db o) = users db.
Proof.
  intros Hid Hp Hu Hf o. subst o.
  unfold out_status; unfold_deletes; delete_cbn.
  rewrite Hf, Hid. delete_cbn. rewrite Hp, bool_decide_true by done.
  delete_cbn.
  destruct (flt TargetDeleteOne), (flt VoteDeleteMany); delete_cbn; cbn; done.
Qed.

(** A delete route answers 200 only to the author of an existing target,
    and only when every call was accepted. *)
Lemma deleteRoute_200 kind flt uid idParam db :
  out_status (serve (deleteRoute castObjectId kind flt uid idParam) db)
  = Some 200 →
  ∃ id doc, castObjectId idParam = Some id
            ∧ findTarget kind db id = Some doc ∧ doc_author doc = uid
            ∧ flt TargetFindById = false ∧ flt TargetDeleteOne = false
            ∧ flt VoteDeleteMany = false
            ∧ (kind = PostT → flt CommentDeleteMany = false).
Proof.
  remember (serve _ db) as o' eqn:Ho. symmetry in Ho.
  unfold deleteRoute in Ho. destruct kind.
  all: unfold out_status; unfold_deletes; delete_cbn; repeat delete_step Ho.
  all: subst o'; delete_cbn; cbn [status fmap option_fmap option_map].
  all: try match goal with
           | e : StorageError = CastError |- _ => discriminate e
           end.
  all: intros [=].
  - exists o, (docOfPost p). cbn [findTarget]. rewrite Heqo0.
    rewrite bool_decide_eq_true in Heqb0. done.
  - exists o, (docOfComment c). cbn [findTarget]. rewrite Heqo0.
    rewrite bool_decide_eq_true in Heqb0. done.
Qed.

(** X12. A deleted target can no longer be voted on. Once a delete route
    has answered 200, a vote request for the same id with a valid value is
    answered 404 and leaves the database as the deletion left it, whoever
    votes and whatever the value. *)
Theorem vote_after_delete_not_found kind uid idParam db voter value :
  let deleted := serve (deleteRoute castObjectId kind noFaults uid idParam) db in
  out_status deleted = Some 200 →
  validVoteValue StringToNumber value = true →
  serve (voteRoute StringToNumber castObjectId noFaults kind
                   (mkVoteRequest voter idParam value)) (out_db deleted)
  = mkOutcome (Some (reply 404 (notFoundMessage kind))) (out_db deleted)
              [TargetFindById].
Proof.
  intros deleted H200 Hval.
  destruct (deleteRoute_200 kind noFaults uid idParam db H200)
    as (id & doc & Hid & Hdoc & Hauthor & _).
  apply (missing_target_not_found StringToNumber castObjectId noFaults kind
           (mkVoteRequest voter idParam value) (out_db deleted) id Hval
           eq_refl Hid).
  subst deleted. unfold findTarget in *. destruct kind; cbn [deleteRoute].
  - destruct (posts db !! id) as [p|] eqn:Hp; [|done].
    injection Hdoc as <-. cbn [docOfPost doc_author] in Hauthor.
    destruct (deletePost_effect noFaults uid idParam db id p Hid Hp
                Hauthor eq_refl) as (_ & -> & _).
    cbn [noFaults]. by rewrite lookup_delete_eq.
  - destruct (comments db !! id) as [c|] eqn:Hc; [|done].
    injection Hdoc as <-. cbn [docOfComment doc_author] in Hauthor.
    destruct (deleteComment_effect noFaults uid idParam db id c Hid Hc
                Hauthor eq_refl) as (_ & _ & -> & _).
    cbn [noFaults]. by rewrite lookup_delete_eq.
Qed.

(** X13. The deletions of the post route are not one transaction. When the
    author deletes a post, the three calls ([post.deleteOne],
    [Comment.deleteMany], [Vote.deleteMany]) are all issued, and each one
    that the storage layer accepts takes effect, whatever happens to the two
    others; the answer is 200 when all three were accepted and 500
    otherwise. So a failure of [Vote.deleteMany] alone is answered 500 with
    the post gone and its votes still in the ledger. *)
Theorem deletePost_is_not_atomic flt uid idParam db id p :
  castObjectId idParam = Some id →
  posts db !! id = Some p →
  post_author p = uid →
  flt TargetFindById = false →
  let o := serve (deletePost castObjectId flt uid idParam) db in
  out_log o
  = [TargetFindById; TargetDeleteOne; CommentDeleteMany; VoteDeleteMany]
  ∧ out_status o
    = Some (if flt TargetDeleteOne || flt CommentDeleteMany
               || flt VoteDeleteMany then 500 else 200)
  ∧ posts (out_db o)
    = (if flt TargetDeleteOne then posts db else delete id (posts db))
  ∧ comments (out_db o)
    = (if flt CommentDeleteMany then comments db
       else Comment_deleteMany id (comments db))
  ∧ votes (out_db o)
    = (if flt VoteDeleteMany then votes db
       else Vote_deleteMany PostT id (votes db))
  ∧ users (out_db o) = users db.
Proof.
  intros Hid Hp Hu Hf o. subst o.
  unfold out_status; unfold_deletes; delete_cbn.
  rewrite Hf, Hid. delete_cbn. rewrite Hp.
  rewrite (bool_decide_true (post_author p = uid)) by done.
  delete_cbn.
  destruct (flt TargetDeleteOne) eqn:H1, (flt CommentDeleteMany) eqn:H2,
    (flt VoteDeleteMany) eqn:H3; delete_cbn.
  all: cbn [status fmap option_fmap option_map orb].
  all: repeat split; reflexivity.
Qed.




End DeleteOutcomes.

(** ** More on the karma recalculation *)

Ltac unfold_karma :=
  unfold updateKarma, mbind, M_bind, await, awaitAll, getDb, putDb, mret,
    M_ret, throw, resultWorld.

(** X15. [updateKarma] writes one field. Whichever storage call fails, the
    posts, the comments, the ledger, the open transaction and every other
    user are as before; when it throws, the whole database is as before;
    when it returns, the value returned is the sum over the user's posts and
    comments and the user's document is [this] with that karma. *)
Theorem updateKarma_writes_only_the_karma flt uid this w :
  let r := updateKarma flt uid this w in
  let w' := resultWorld r in
  posts (w_db w') = posts (w_db w)
  ∧ comments (w_db w') = comments (w_db w)
  ∧ votes (w_db w') = votes (w_db w)
  ∧ w_session w' = w_session w
  ∧ (∀ u, u ≠ uid → users (w_db w') !! u = users (w_db w) !! u)
  ∧ (∀ e, r = Throw e w' → w_db w' = w_db w)
  ∧ (∀ k, r = Ret k w' →
          k = specKarma (w_db w) uid
          ∧ users (w_db w') !! uid = Some (setKarma this k)).
Proof.
  intros r w'. subst w' r. unfold_karma.
  cbn [forallb negb andb w_db w_session w_log].
  destruct (flt PostAggregate), (flt CommentAggregate); cbn [negb andb].
  all: try (repeat split; try done; intros ? [=]).
  destruct (flt UserSave); cbn [w_db w_session w_log].
  { repeat split; try done; intros ? [=]. }
  destruct (users (w_db w) !! uid) eqn:Hu; cbn [w_db w_session w_log].
  - split; [done|]. split; [done|]. split; [done|]. split; [done|].
    split; [|split].
    + intros u' Hne. cbn [users]. by rewrite lookup_insert_ne.
    + intros e [=].
    + intros k [= <-]. split.
      * unfold specKarma. by rewrite !aggregateKarma_total.
      * cbn [users]. by rewrite lookup_insert_eq.
  - repeat split; try done; intros ? [=].
Qed.

(** X16. Recalculating twice is recalculating once. After a recalculation
    that went through, a second one returns the same karma and leaves the
    database as the first one left it. *)
Theorem updateKarma_twice_is_once db uid this ses log :
  is_Some (users db !! uid) →
  ∃ k w1 w2,
    updateKarma noFaults uid this (mkWorld db ses log) = Ret k w1
    ∧ updateKarma noFaults uid (setKarma this k) w1 = Ret k w2
    ∧ w_db w2 = w_db w1.
Proof.
  intros [u Hu]. unfold_karma.
  cbn [noFaults forallb negb andb w_db w_session w_log].
  rewrite Hu. eexists _, _, _. split; [reflexivity|].
  cbn [w_db w_session w_log posts comments users].
  rewrite lookup_insert_eq. split; [reflexivity|].
  cbn [w_db]. f_equal. by rewrite insert_insert_eq.
Qed.

Lemma karma_fold_none {D} (author : D → ObjectId) (up down : D → Z) uid
    (m : gmap ObjectId D) :
  (∀ i d, m !! i = Some d → author d ≠ uid) →
  map_fold (λ _ d acc,
              if decide (author d = uid) then acc + (up d - down d) else acc)
           0 m = 0.
Proof.
  apply (map_fold_weak_ind
           (λ r m, (∀ i d, m !! i = Some d → author d ≠ uid) → r = 0)).
  - done.
  - intros i x m' r Hi IH Hall.
    rewrite decide_False.
    + apply IH. intros j d Hj. apply (Hall j).
      rewrite lookup_insert_ne; [done|]. intros ->. congruence.
    + apply (Hall i). by rewrite lookup_insert_eq.
Qed.

(** X17. A user who wrote no post and no comment gets karma 0: both
    aggregations come back empty and [updateKarma] writes and returns 0. *)
Theorem updateKarma_without_content_is_zero db uid this ses log :
  is_Some (users db !! uid) →
  (∀ id p, posts db !! id = Some p → post_author p ≠ uid) →
  (∀ id c, comments db !! id = Some c → comment_author c ≠ uid) →
  aggregateKarma post_author post_upvotes post_downvotes uid (posts db) = []
  ∧ aggregateKarma comment_author comment_upvotes comment_downvotes uid
                   (comments db) = []
  ∧ ∃ w', updateKarma noFaults uid this (mkWorld db ses log) = Ret 0 w'
          ∧ users (w_db w') !! uid = Some (mkUser 0).
Proof.
  intros [u Hu] Hposts Hcomments.
  assert (Hempty : ∀ D (author : D → ObjectId) up down (m : gmap ObjectId D),
            (∀ i d, m !! i = Some d → author d ≠ uid) →
            aggregateKarma author up down uid m = []).
  { intros D author up down m Hall. unfold aggregateKarma.
    replace (filter (λ d, author d = uid) (map_to_list m).*2) with (@nil D);
      [done|].
    symmetry.
    destruct (filter _ _) as [|d rest] eqn:Hf; [done|].
    assert (Hd : d ∈ filter (λ d, author d = uid) (map_to_list m).*2)
      by (rewrite Hf; apply elem_of_cons; by left).
    apply list_elem_of_filter in Hd as [Hd Hin].
    apply list_elem_of_fmap in Hin as ([i d'] & -> & Hin).
    apply elem_of_map_to_list in Hin. by destruct (Hall i d' Hin). }
  rewrite !Hempty by done. repeat split.
  unfold_karma. cbn [noFaults forallb negb andb w_db w_session w_log].
  rewrite Hu, !Hempty by done. eexists. split; [reflexivity|].
  cbn [w_db users]. by rewrite lookup_insert_eq.
Qed.

Lemma karma_fold_alter {D} (author : D → ObjectId) (up down : D → Z) uid
    (m : gmap ObjectId D) i x (f : D → D) :
  m !! i = Some x →
  author (f x) = author x →
  let F := λ (_ : ObjectId) d acc,
             if decide (author d = uid) then acc + (up d - down d) else acc in
  map_fold F 0 (alter f i m)
  = map_fold F 0 m
    + (if decide (author x = uid)
       then (up (f x) - down (f x)) - (up x - down x) else 0).
Proof.
  intros Hi Ha F.
  assert (Hcomm : ∀ (j1 j2 : ObjectId) (z1 z2 : D) (y : Z),
            F j1 z1 (F j2 z2 y) = F j2 z2 (F j1 z1 y)).
  { intros. unfold F. repeat case_decide; lia. }
  replace (alter f i m) with (<[i := f x]> (delete i m)).
  - rewrite map_fold_insert_L;
      [|intros; apply Hcomm|by rewrite lookup_delete_eq].
    rewrite (map_fold_delete_L F 0 i x m); [|intros; apply Hcomm|done].
    unfold F at 1 3. rewrite Ha. case_decide; lia.
  - apply map_eq. intros j. destruct (decide (i = j)) as [->|Hne].
    + by rewrite lookup_insert_eq, lookup_alter_eq, Hi.
    + by rewrite lookup_insert_ne, lookup_delete_ne, lookup_alter_ne.
Qed.

(** The sum that [updateKarma] computes, after the counters of one target
    were replaced. *)
Lemma specKarma_setCounters kind id post post' db l u a :
  findTarget kind db id = Some post →
  specKarma (mkStore (posts (setCounters kind id post' db))
                     (comments (setCounters kind id post' db)) l u) a
  = specKarma db a
    + (if decide (doc_author post = a)
       then (doc_upvotes post' - doc_downvotes post')
            - (doc_upvotes post - doc_downvotes post)
       else 0).
Proof.
  unfold findTarget, specKarma, setCounters. intros Hp.
  destruct kind; cbn [posts comments].
  - destruct (posts db !! id) as [p|] eqn:Hl; [|done]. injection Hp as <-.
    rewrite (karma_fold_alter post_author post_upvotes post_downvotes a
               (posts db) id p
               (λ p, mkPost (post_author p) (doc_upvotes post')
                            (doc_downvotes post')) Hl eq_refl).
    cbn. lia.
  - destruct (comments db !! id) as [c|] eqn:Hl; [|done]. injection Hp as <-.
    rewrite (karma_fold_alter comment_author comment_upvotes
               comment_downvotes a (comments db) id c
               (λ c, mkComment (comment_author c) (comment_post c)
                               (doc_upvotes post') (doc_downvotes post'))
               Hl eq_refl).
    cbn. lia.
Qed.

Section KarmaAfterVotes.

Variable StringToNumber : string → option Z.
Variable castObjectId : string → option ObjectId.

(** X18. After a vote the stored karma lags by that vote. A vote request
    answered 200 leaves, in the document of the target's author, the sum
    over the author's posts and comments as they now are, less what the
    request itself added to upvotes minus downvotes of the target. *)
Theorem karma_lags_by_the_last_vote flt kind rq db :
  let o := serve (voteRoute StringToNumber castObjectId flt kind rq) db in
  out_status o = Some 200 →
  ∃ id before after,
    castObjectId (rq_id rq) = Some id
    ∧ findTarget kind db id = Some before
    ∧ findTarget kind (out_db o) id = Some after
    ∧ (is_Some (users db !! doc_author before) →
       user_karma <$> users (out_db o) !! doc_author before
       = Some (specKarma (out_db o) (doc_author before)
               - ((doc_upvotes after - doc_downvotes after)
                  - (doc_upvotes before - doc_downvotes before)))).
Proof.
  intros o Hs. subst o.
  destruct (voteRoute_committed StringToNumber castObjectId flt kind rq db Hs)
    as (id & post & post' & l' & log & Hid & Hp & Ha & _ & _ & _ & _ & ->).
  exists id, post, post'. cbn [out_db]. repeat (split; [done|]). split.
  - rewrite findTarget_committed, decide_True, Hp by done. cbn.
    rewrite <- Ha. by destruct post'.
  - intros [u Hu]. rewrite (specKarma_setCounters _ _ post) by done.
    rewrite decide_True by done.
    cbn [users]. unfold recalculated. rewrite Hu, lookup_insert_eq. cbn.
    f_equal. lia.
Qed.

(** X19. A vote that changes nothing still recalculates the karma, and
    then the karma is exact. When a voter sends again the value +1 or -1 of
    the vote they hold and no storage call fails, the document of the
    target's author holds the sum over the author's posts and comments of
    the database the request leaves. *)
Theorem noop_vote_brings_karma_up_to_date kind rq db id post i v z u :
  castObjectId (rq_id rq) = Some id →
  findTarget kind db id = Some post →
  Vote_findOne (rq_user rq, kind, id) (votes db) = Some (i, v) →
  vote_value v = z →
  z ∈ [1; -1] →
  rq_value rq = JNum z →
  users db !! doc_author post = Some u →
  let o := serve (voteRoute StringToNumber castObjectId noFaults kind rq) db in
  out_status o = Some 200
  ∧ users (out_db o) !! doc_author post
    = Some (mkUser (specKarma (out_db o) (doc_author post))).
Proof.
  intros Hid Hp Hf Hv Hz Hval Hu o. subst o.
  assert (Hz1 : z ∈ [-1; 0; 1]) by (clear -Hz; split_elem_of; decide_it).
  destruct (vote_numeric_run StringToNumber castObjectId kind rq db id post
              z z Hid Hp Hval Hz1 Hz1) as [log ->].
  { unfold currentVote. rewrite Hf. split; [done|].
    clear -Hz. split_elem_of; done. }
  split; [done|]. cbn [out_db users].
  rewrite (specKarma_setCounters _ _ post) by done.
  rewrite decide_True by done.
  unfold recalculated. rewrite Hu, lookup_insert_eq.
  unfold specTransition. rewrite bool_decide_true by done.
  cbn [fst snd doc_upvotes doc_downvotes]. unfold applyDelta.
  compute_tests. unfold setKarma. do 2 f_equal. lia.
Qed.

End KarmaAfterVotes.

(** ** Reading back a vote *)




Section ReadingBack.

Variable StringToNumber : string → option Z.
Variable castObjectId : string → option ObjectId.


(** X21. The read route of a post always answers, with 200, 404 or 500,
    and never writes. It answers 404 exactly when the id is no ObjectId,
    whatever the state of the storage layer, or when [findById] was accepted
    and found no post (the vote route answers 500 to an id that is no
    ObjectId); it answers 500 exactly when the id is an ObjectId and one of
    the storage calls the route made failed; and its body carries [userVote]
    exactly when the request carries a user. *)
Theorem getPost_answers flt user idParam db :
  ∃ r log,
    getPost castObjectId flt user idParam (mkWorld db None [])
    = Ret r (mkWorld db None log)
    ∧ view_status r ∈ [200; 404; 500]
    ∧ (view_status r = 404
       ↔ castObjectId idParam = None
         ∨ (flt TargetFindById = false
            ∧ ∃ id, castObjectId idParam = Some id ∧ posts db !! id = None))
    ∧ (view_status r = 500
       ↔ is_Some (castObjectId idParam)
         ∧ ∃ op, op ∈ log ∧ flt op = true)
    ∧ (∀ body, r = ViewOk body →
               (view_userVote body = None ↔ user = None)).
Proof.
  unfold getPost, findByIdCall, tryCatch, mbind, M_bind, mret, M_ret, await,
    getDb, throw.
  cbn [w_db w_session w_log app].
  destruct (castObjectId idParam) as [id|] eqn:Hid.
  2: { eexists _, _. split; [reflexivity|]. cbn [view_status].
       split; [decide_it|]. split; [split; [by left|done]|].
       split; [|intros ? [=]]. split; [done|].
       intros [[? [=]] _]. }
  destruct (flt TargetFindById) eqn:Hf1.
  { eexists _, _. split; [reflexivity|]. cbn [view_status].
    split; [decide_it|].
    split; [split; [done|by intros [[=]|[? _]]]|].
    split; [|intros ? [=]]. split; [|done]. intros _. split; [by eexists|].
    exists TargetFindById. split; [apply list_elem_of_singleton|]; done. }
  cbn [w_db w_session w_log app].
  destruct (posts db !! id) as [post|] eqn:Hp.
  2: { eexists _, _. split; [reflexivity|]. cbn [view_status].
       split; [decide_it|].
       split; [split; [intros _; right; split; [done|]; by exists id|done]|].
       split; [|intros ? [=]]. split; [done|].
       intros (_ & op & Hin & Hop). apply list_elem_of_singleton in Hin.
       congruence. }
  assert (Hfound : ¬ (Some id = None ∨ false = false
                      ∧ ∃ id', Some id = Some id' ∧ posts db !! id' = None)).
  { intros [[=]|(_ & id' & [= <-] & Hn)]. congruence. }
  destruct user as [uid|]; cbn [w_db w_session w_log app].
  2: { eexists _, _. split; [reflexivity|]. cbn [view_status].
       split; [decide_it|].
       split; [split; [done|intros H; by apply Hfound in H]|].
       split.
       - split; [done|]. intros (_ & op & Hin & Hop).
         apply list_elem_of_singleton in Hin. congruence.
       - intros body [= <-]. done. }
  destruct (flt VoteFindOne) eqn:Hf2.
  - eexists _, _. split; [reflexivity|]. cbn [view_status].
    split; [decide_it|].
    split; [split; [done|intros H; by apply Hfound in H]|].
    split; [|intros ? [=]]. split; [|done]. intros _. split; [by eexists|].
    exists VoteFindOne. split; [|done]. apply elem_of_cons. right.
    by apply list_elem_of_singleton.
  - eexists _, _. split; [reflexivity|]. cbn [view_status].
    split; [decide_it|].
    split; [split; [done|intros H; by apply Hfound in H]|].
    split.
    + split; [done|]. intros (_ & op & Hin & Hop).
      apply elem_of_cons in Hin as [->|Hin]; [congruence|].
      apply list_elem_of_singleton in Hin. congruence.
    + intros body [= <-]. done.
Qed.

End ReadingBack.

(** ** The list routes and the detail route *)

Lemma buildVoteMap_lookup (userVotes : list Vote) (m : gmap ObjectId Z) id :
  foldl (λ voteMap vote, <[vote_target vote := vote_value vote]> voteMap)
        m userVotes !! id
  = match last (filter (λ v, vote_target v = id) userVotes) with
    | Some v => Some (vote_value v)
    | None => m !! id
    end.
Proof.
  revert m. induction userVotes as [|v l IH]; intros m; [done|].
  cbn [foldl]. rewrite IH, filter_cons.
  destruct (decide (vote_target v = id)) as [<-|Hne].
  - rewrite last_cons. destruct (last (filter _ l)); [done|].
    by rewrite lookup_insert_eq.
  - destruct (last (filter _ l)); [done|]. by rewrite lookup_insert_ne.
Qed.

Lemma filter_unique_key k l :
  uniqueVotes l →
  filter (λ v, voteKey v = k) l
  = match Vote_findOne k l with
    | Some (_, v) => [v]
    | None => []
    end.
Proof.
  unfold uniqueVotes, Vote_findOne. induction l as [|v l IH]; [done|].
  intros Hu. cbn [fmap list_fmap] in Hu. apply NoDup_cons in Hu as [Hv Hu].
  rewrite filter_cons. cbn [list_find].
  destruct (decide (voteKey v = k)) as [Hk|Hk].
  - cbn. f_equal.
    assert (Hnone : list_find (λ v, voteKey v = k) l = None).
    { apply list_find_None, Forall_forall. intros x Hx Hxk. apply Hv.
      apply list_elem_of_fmap. exists x. split; [congruence|done]. }
    specialize (IH Hu). rewrite Hnone in IH. exact IH.
  - rewrite (IH Hu). by destruct (list_find _ l) as [[i x]|].
Qed.

(** X22. The list routes and the detail route show the same vote. When
    the ledger has one record per key, the [userVote] that the list routes
    give to a document of the page, through [voteMap[id] || 0], is the one
    the detail route computes with [findOne], [vote ? vote.value : 0]. *)
Theorem list_and_detail_show_same_vote uid kind ids l id :
  uniqueVotes l →
  id ∈ ids →
  (id, userVoteOf (Vote_findOne (uid, kind, id) l))
  ∈ annotateUserVotes uid kind ids l.
Proof.
  intros Hu Hin. unfold annotateUserVotes.
  apply list_elem_of_fmap. exists id. split; [|done]. f_equal.
  unfold voteMapOrZero, buildVoteMap, Vote_find.
  rewrite buildVoteMap_lookup, lookup_empty.
  rewrite list_filter_filter.
  rewrite (list_filter_iff _ (λ v, voteKey v = (uid, kind, id))).
  - rewrite (filter_unique_key _ _ Hu).
    destruct (Vote_findOne _ l) as [[i v]|]; cbn; [|done].
    by case_bool_decide.
  - intros v. unfold voteKey. split.
    + intros (<- & <- & <- & _). done.
    + intros [= <- <- <-]. done.
Qed.

(** ** Two requests that load before either writes *)

(** The target that [save] leaves when the document was loaded as [loaded],
    changed in memory to [post], and is [current] in the database by the time
    of the save: a counter is written when the request changed it, and kept
    as the database has it otherwise. *)
Lemma settle_stale kind id loaded post current db s log :
  findTarget kind s id = Some current →
  let merged :=
    mkDoc (doc_author current)
          (if decide (doc_upvotes loaded = doc_upvotes post)
           then doc_upvotes current else doc_upvotes post)
          (if decide (doc_downvotes loaded = doc_downvotes post)
           then doc_downvotes current else doc_downvotes post) in
  ∃ log',
    settle noFaults kind id loaded post (mkWorld db (Some s) log)
    = Ret () (mkWorld (mkStore (posts (setCounters kind id merged s))
                               (comments (setCounters kind id merged s))
                               (votes s)
                               (recalculated db (doc_author post)))
                      None log').
Proof.
  intros Hl merged.
  destruct (settle _ _ _ _ _ _) as [[] w|e w] eqn:Hs.
  all: unfold settle in Hs; route_run Hs.
  all: try discriminate Hs.
  all: try (unfold findTarget in Hl;
            match goal with
            | H : posts _ !! _ = None |- _ =>
                rewrite H in Hl; cbn in Hl; discriminate Hl
            | H : comments _ !! _ = None |- _ =>
                rewrite H in Hl; cbn in Hl; discriminate Hl
            end).
  all: injection Hs as <-; eexists; f_equal; f_equal; f_equal.
  all: try (rewrite recalculated_users;
            match goal with
            | H : users _ !! _ = _ |- _ => rewrite H
            end; reflexivity).
  all: try (subst post; subst merged; rewrite !decide_True by done;
            destruct (setCounters_same kind id
                        (mkDoc (doc_author current) (doc_upvotes current)
                               (doc_downvotes current)) s) as [H1 H2];
            [by destruct current|by rewrite ?H1, ?H2]).
  all: unfold findTarget, setCounters in *; cbn [posts comments].
  all: try reflexivity.
  all: match goal with
       | H : posts _ !! _ = Some _ |- _ =>
           rewrite H in Hl; cbn in Hl; injection Hl as <-;
           rewrite (alter_as_insert _ _ _ _ H)
       | H : comments _ !! _ = Some _ |- _ =>
           rewrite H in Hl; cbn in Hl; injection Hl as <-;
           rewrite (alter_as_insert _ _ _ _ H)
       end.
  all: subst merged; cbn; try reflexivity.
  all: subst post; rewrite !decide_True by done; symmetry; apply insert_id.
  all: match goal with
       | H : _ !! _ = Some ?d |- _ => rewrite H; by destruct d
       end.
Qed.

Section StaleCounters.

Variable StringToNumber : string → option Z.
Variable castObjectId : string → option ObjectId.

(** The first stretch of a request with a valid value on an existing
    target. *)
Lemma advance_waiting kind rq db id post :
  validVoteValue StringToNumber (rq_value rq) = true →
  castObjectId (rq_id rq) = Some id →
  findTarget kind db id = Some post →
  advance StringToNumber castObjectId noFaults kind (Waiting rq) db
  = (Loaded rq id post [TargetFindById], db).
Proof.
  intros Hv Hid Hp. cbn [advance].
  unfold voteLoad, findByIdCall, mbind, M_bind, mret, M_ret, await, getDb.
  cbn [noFaults w_db w_session w_log app].
  rewrite Hv. cbn [negb]. rewrite Hid. cbn [w_db]. by rewrite Hp.
Qed.

(** The transaction of a numeric vote, run on a database that may have
    moved since the target was loaded. *)
Lemma advance_loaded kind rq idParam id loaded current db log previous
    requested :
  rq = mkVoteRequest (rq_user rq) idParam (JNum requested) →
  findTarget kind db id = Some current →
  requested ∈ [-1; 0; 1] →
  previous ∈ [-1; 0; 1] →
  currentVote (rq_user rq, kind, id) (votes db) previous →
  let row := specTransition previous requested in
  let post :=
    mkDoc (doc_author loaded) (applyDelta (doc_upvotes loaded) row.1.2)
          (applyDelta (doc_downvotes loaded) row.2) in
  let merged :=
    mkDoc (doc_author current)
          (if decide (doc_upvotes loaded = doc_upvotes post)
           then doc_upvotes current else doc_upvotes post)
          (if decide (doc_downvotes loaded = doc_downvotes post)
           then doc_downvotes current else doc_downvotes post) in
  advance StringToNumber castObjectId noFaults kind (Loaded rq id loaded log)
          db
  = (Done (Some (mkResponse 200 "Vote recorded" (Some post))),
     mkStore (posts (setCounters kind id merged db))
             (comments (setCounters kind id merged db))
             (applyAction row.1.1 (rq_user rq, kind, id) (votes db))
             (recalculated db (doc_author loaded))).
Proof.
  intros Hrq Hc Hreq Hprev Hcur row post merged.
  destruct rq as [uid idParam' value]. cbn [rq_user] in *.
  injection Hrq as -> ->.
  set (k := (uid, kind, id)) in *.
  destruct (reconcile_table StringToNumber k previous requested loaded db db
              ((log ++ [StartSession]) ++ [VoteFindOne]) Hreq Hprev Hcur)
    as [log1 Hrec].
  destruct (settle_stale kind id loaded post current db
              (setVotes db (applyAction row.1.1 k (votes db))) log1)
    as (log2 & Hset).
  { by rewrite findTarget_setVotes. }
  cbn [advance rq_user rq_value].
  unfold serveFrom, voteInSession, voteTransaction, tryCatch,
    startTransaction, mbind, M_bind, mret, M_ret, await, getDb, getSession.
  cbn [noFaults w_db w_session w_log]. fold k. rewrite Hrec.
  fold row. fold post. rewrite Hset.
  cbn [w_db w_log out_response out_db]. by destruct kind.
Qed.

(** X23. The lost update, for any database. Two users without a record on
    an existing target each send +1, and both requests load the target
    before either runs its transaction. Both are answered 200 and the ledger
    gains the two records, but the second transaction writes the counter it
    computed from the document it loaded: the upvotes rise by one, not by
    two. A database whose counters matched the ledger no longer does. *)
Theorem interleaved_first_votes_count_once kind u1 u2 idParam db id post :
  castObjectId idParam = Some id →
  findTarget kind db id = Some post →
  u1 ≠ u2 →
  Vote_findOne (u1, kind, id) (votes db) = None →
  Vote_findOne (u2, kind, id) (votes db) = None →
  let requests := [ Waiting (mkVoteRequest u1 idParam (JNum 1));
                    Waiting (mkVoteRequest u2 idParam (JNum 1)) ] in
  let r := runSchedule StringToNumber castObjectId noFaults kind
                       [0; 1; 0; 1]%nat requests db in
  forallb succeeded r.1 = true
  ∧ votes r.2 = votes db ++ [mkVote u1 kind id 1; mkVote u2 kind id 1]
  ∧ findTarget kind r.2 id
    = Some (mkDoc (doc_author post) (doc_upvotes post + 1)
                  (doc_downvotes post))
  ∧ (tallied db → ¬ tallied r.2).
Proof.
  intros Hid Hp Hne Hn1 Hn2 requests r.
  cut (forallb succeeded r.1 = true
       ∧ votes r.2 = votes db ++ [mkVote u1 kind id 1; mkVote u2 kind id 1]
       ∧ findTarget kind r.2 id
         = Some (mkDoc (doc_author post) (doc_upvotes post + 1)
                       (doc_downvotes post))).
  { intros (Hok & Hv & Hf). repeat (split; [done|]).
    intros Ht Ht'. destruct (Ht kind id post Hp) as [Hup _].
    destruct (Ht' kind id _ Hf) as [Hup' _]. rewrite Hv in Hup'.
    cbn [doc_upvotes] in Hup'.
    change (votes db ++ [mkVote u1 kind id 1; mkVote u2 kind id 1])
      with (votes db ++ [mkVote u1 kind id 1] ++ [mkVote u2 kind id 1])
      in Hup'.
    rewrite app_assoc, !countVotes_app in Hup'.
    rewrite !decide_True in Hup' by done. lia. }
  subst r requests.
  assert (H1 : (1 : Z) ∈ [-1; 0; 1]) by decide_it.
  assert (H0 : (0 : Z) ∈ [-1; 0; 1]) by decide_it.
  cbn [runSchedule lookup list_lookup].
  rewrite (advance_waiting kind (mkVoteRequest u1 idParam (JNum 1)) db id post
             eq_refl Hid Hp).
  cbn [runSchedule lookup list_lookup insert list_insert].
  rewrite (advance_waiting kind (mkVoteRequest u2 idParam (JNum 1)) db id post
             eq_refl Hid Hp).
  cbn [runSchedule lookup list_lookup insert list_insert].
  rewrite (advance_loaded kind (mkVoteRequest u1 idParam (JNum 1)) idParam id
             post post db [TargetFindById] 0 1 eq_refl Hp H1 H0);
    [|by unfold currentVote; cbn [rq_user]; rewrite Hn1].
  cbn [runSchedule lookup list_lookup insert list_insert rq_user].
  change (specTransition 0 1) with (ActCreate 1, 1, 0).
  cbn [fst snd applyAction]. unfold applyDelta.
  change (bool_decide (1 < 0)) with false.
  change (bool_decide (0 < 0)) with false. cbn iota.
  cbn [doc_author doc_upvotes doc_downvotes].
  set (db1 := mkStore _ _ _ _).
  assert (Hp1 : findTarget kind db1 id
                = Some (mkDoc (doc_author post) (doc_upvotes post + 1)
                              (doc_downvotes post))).
  { subst db1. rewrite findTarget_committed, decide_True, Hp by done.
    cbn. do 2 f_equal.
    - rewrite decide_False by lia. reflexivity.
    - rewrite decide_True by lia. reflexivity. }
  rewrite (advance_loaded kind (mkVoteRequest u2 idParam (JNum 1)) idParam id
             post _ db1 [TargetFindById] 0 1 eq_refl Hp1 H1 H0).
  2: { unfold currentVote. cbn [rq_user]. subst db1. cbn [votes].
       rewrite Vote_findOne_other; [done|done|].
       cbn. intros [= ->]. done. }
  cbn [fst snd forallb succeeded status andb rq_user].
  change (specTransition 0 1) with (ActCreate 1, 1, 0).
  cbn [fst snd applyAction]. unfold applyDelta.
  change (bool_decide (1 < 0)) with false.
  change (bool_decide (0 < 0)) with false. cbn iota.
  cbn [doc_author doc_upvotes doc_downvotes votes].
  split; [reflexivity|]. split.
  - subst db1. cbn [votes]. by rewrite <- app_assoc.
  - rewrite findTarget_committed, decide_True, Hp1 by done. cbn.
    do 2 f_equal.
    + rewrite decide_False by lia. reflexivity.
    + rewrite decide_True by lia. reflexivity.
Qed.

(** X24. Interleaved votes on different counters both count. A user
    sends +1 and another -1 to the same target, neither having a record, and
    both requests load the target before either runs its transaction. [save]
    writes the paths the request changed and no other, so the second
    transaction leaves the upvote of the first in place: upvotes and
    downvotes each rise by one, and the ledger gains the two records. *)
Theorem interleaved_opposite_votes_both_count kind u1 u2 idParam db id post :
  castObjectId idParam = Some id →
  findTarget kind db id = Some post →
  u1 ≠ u2 →
  Vote_findOne (u1, kind, id) (votes db) = None →
  Vote_findOne (u2, kind, id) (votes db) = None →
  let requests := [ Waiting (mkVoteRequest u1 idParam (JNum 1));
                    Waiting (mkVoteRequest u2 idParam (JNum (-1))) ] in
  let r := runSchedule StringToNumber castObjectId noFaults kind
                       [0; 1; 0; 1]%nat requests db in
  forallb succeeded r.1 = true
  ∧ votes r.2 = votes db ++ [mkVote u1 kind id 1; mkVote u2 kind id (-1)]
  ∧ findTarget kind r.2 id
    = Some (mkDoc (doc_author post) (doc_upvotes post + 1)
                  (doc_downvotes post + 1)).
Proof.
  intros Hid Hp Hne Hn1 Hn2 requests r. subst r requests.
  assert (H1 : (1 : Z) ∈ [-1; 0; 1]) by decide_it.
  assert (Hm : (-1 : Z) ∈ [-1; 0; 1]) by decide_it.
  assert (H0 : (0 : Z) ∈ [-1; 0; 1]) by decide_it.
  cbn [runSchedule lookup list_lookup].
  rewrite (advance_waiting kind (mkVoteRequest u1 idParam (JNum 1)) db id post
             eq_refl Hid Hp).
  cbn [runSchedule lookup list_lookup insert list_insert].
  rewrite (advance_waiting kind (mkVoteRequest u2 idParam (JNum (-1))) db id
             post eq_refl Hid Hp).
  cbn [runSchedule lookup list_lookup insert list_insert].
  rewrite (advance_loaded kind (mkVoteRequest u1 idParam (JNum 1)) idParam id
             post post db [TargetFindById] 0 1 eq_refl Hp H1 H0);
    [|by unfold currentVote; cbn [rq_user]; rewrite Hn1].
  cbn [runSchedule lookup list_lookup insert list_insert rq_user].
  change (specTransition 0 1) with (ActCreate 1, 1, 0).
  cbn [fst snd applyAction]. unfold applyDelta.
  change (bool_decide (1 < 0)) with false.
  change (bool_decide (0 < 0)) with false. cbn iota.
  cbn [doc_author doc_upvotes doc_downvotes].
  set (db1 := mkStore _ _ _ _).
  assert (Hp1 : findTarget kind db1 id
                = Some (mkDoc (doc_author post) (doc_upvotes post + 1)
                              (doc_downvotes post))).
  { subst db1. rewrite findTarget_committed, decide_True, Hp by done.
    cbn. do 2 f_equal.
    - rewrite decide_False by lia. reflexivity.
    - rewrite decide_True by lia. reflexivity. }
  rewrite (advance_loaded kind (mkVoteRequest u2 idParam (JNum (-1))) idParam
             id post _ db1 [TargetFindById] 0 (-1) eq_refl Hp1 Hm H0).
  2: { unfold currentVote. cbn [rq_user]. subst db1. cbn [votes].
       rewrite Vote_findOne_other; [done|done|].
       cbn. intros [= ->]. done. }
  cbn [fst snd forallb succeeded status andb rq_user].
  change (specTransition 0 (-1)) with (ActCreate (-1), 0, 1).
  cbn [fst snd applyAction]. unfold applyDelta.
  change (bool_decide (1 < 0)) with false.
  change (bool_decide (0 < 0)) with false. cbn iota.
  cbn [doc_author doc_upvotes doc_downvotes votes].
  split; [reflexivity|]. split.
  - subst db1. cbn [votes]. by rewrite <- app_assoc.
  - rewrite findTarget_committed, decide_True, Hp1 by done. cbn.
    do 2 f_equal.
    + rewrite decide_True by lia. reflexivity.
    + rewrite decide_False by lia. reflexivity.
Qed.

End StaleCounters.

(** ** The further properties at work on the small databases *)

Lemma threadDb_targets kind id doc :
  findTarget kind threadDb id = Some doc →
  (kind = PostT ∧ id = 1%N ∧ doc = mkDoc carol 1 0)
  ∨ (kind = CommentT ∧ id = 2%N ∧ doc = mkDoc bob 1 0).
Proof.
  unfold findTarget, threadDb. destruct kind; cbn [posts comments]; intros H.
  - apply fmap_Some in H as (p & Hp & ->).
    apply lookup_singleton_Some in Hp as [<- <-]. by left.
  - apply fmap_Some in H as (c & Hc & ->).
    apply lookup_singleton_Some in Hc as [<- <-]. by right.
Qed.

Lemma threadDb_nonNegative : nonNegative threadDb.
Proof.
  intros kind id doc H.
  destruct (threadDb_targets kind id doc H) as [(-> & -> & ->)|(-> & -> & ->)];
    cbn; lia.
Qed.

Lemma threadDb_tallied : tallied threadDb.
Proof.
  intros kind id doc H.
  destruct (threadDb_targets kind id doc H) as [(-> & -> & ->)|(-> & -> & ->)];
    split; reflexivity.
Qed.

Lemma threadDb_signed : signedVotes (votes threadDb).
Proof. repeat constructor. Qed.

Lemma threadDb_unique : uniqueVotes (votes threadDb).
Proof. unfold uniqueVotes. decide_it. Qed.

Lemma vote_keeps_counters_nonnegative_witness :
  nonNegative threadDb
  ∧ nonNegative
      (out_db (serve (voteRoute decimalToNumber hexObjectId noFaults PostT
                                (mkVoteRequest alice postParam (JNum 0)))
                     threadDb)).
Proof.
  split; [exact threadDb_nonNegative|].
  exact (vote_keeps_counters_nonnegative decimalToNumber hexObjectId noFaults
           PostT (mkVoteRequest alice postParam (JNum 0)) threadDb
           threadDb_nonNegative).
Defined.

Lemma vote_writes_karma_of_previous_state_witness :
  let o := serve (voteRoute decimalToNumber hexObjectId noFaults PostT
                            (mkVoteRequest bob postParam (JNum 1))) votedDb in
  out_status o = Some 200
  ∧ posts (out_db o) !! 1%N = Some (mkPost carol 2 0)
  ∧ users (out_db o) !! carol = Some (mkUser 1).
Proof.
  intros o. assert (Hs : out_status o = Some 200) by reflexivity.
  split; [exact Hs|]. split; [reflexivity|].
  destruct (vote_writes_karma_of_previous_state decimalToNumber hexObjectId
              noFaults PostT (mkVoteRequest bob postParam (JNum 1)) votedDb Hs)
    as (id & post & Hid & Hp & _ & Hk & _).
  injection Hid as <-. injection Hp as <-.
  exact (Hk (mkUser 0) eq_refl).
Defined.

Lemma non_numeric_vote_leaves_counters_witness :
  let o := serve (voteRoute decimalToNumber hexObjectId noFaults PostT
                            (mkVoteRequest alice postParam (JStr "1")))
                 sampleDb in
  out_status o = Some 200
  ∧ votes (out_db o) = [mkVote alice PostT 1%N 1]
  ∧ posts (out_db o) = posts sampleDb.
Proof.
  intros o. split; [reflexivity|]. split; [reflexivity|].
  refine (proj1 (non_numeric_vote_leaves_counters decimalToNumber hexObjectId
                   noFaults PostT (mkVoteRequest alice postParam (JStr "1"))
                   sampleDb _)).
  intros z. discriminate.
Defined.

Lemma vote_response_shows_stored_target_witness :
  let o := serve (voteRoute decimalToNumber hexObjectId noFaults PostT
                            (mkVoteRequest alice postParam (JNum (-1))))
                 votedDb in
  out_status o = Some 200
  ∧ ∃ id doc,
      hexObjectId postParam = Some id
      ∧ out_response o = Some (mkResponse 200 "Vote recorded" (Some doc))
      ∧ findTarget PostT (out_db o) id = Some doc.
Proof.
  intros o. assert (Hs : out_status o = Some 200) by reflexivity.
  split; [exact Hs|].
  exact (vote_response_shows_stored_target decimalToNumber hexObjectId noFaults
           PostT (mkVoteRequest alice postParam (JNum (-1))) votedDb Hs).
Defined.

Lemma numeric_vote_keeps_tallies_witness :
  let o := serve (voteRoute decimalToNumber hexObjectId noFaults CommentT
                            (mkVoteRequest alice "000000000000000000000002"
                                           (JNum (-1)))) threadDb in
  signedVotes (votes threadDb) ∧ tallied threadDb
  ∧ comments (out_db o) !! 2%N = Some (mkComment bob 1%N 0 1)
  ∧ tallied (out_db o).
Proof.
  intros o. split; [exact threadDb_signed|]. split; [exact threadDb_tallied|].
  split; [reflexivity|].
  exact (proj2 (numeric_vote_keeps_tallies decimalToNumber hexObjectId noFaults
                  CommentT
                  (mkVoteRequest alice "000000000000000000000002" (JNum (-1)))
                  threadDb (-1) eq_refl threadDb_signed threadDb_tallied)).
Defined.

Lemma last_vote_wins_witness :
  let vote value d :=
    out_db (serve (voteRoute decimalToNumber hexObjectId noFaults PostT
                             (mkVoteRequest alice postParam (JNum value))) d) in
  Vote_findOne (alice, PostT, 1%N) (votes sampleDb) = None
  ∧ votes (vote 0 (vote 1 sampleDb)) = votes sampleDb
  ∧ posts (vote 0 (vote 1 sampleDb)) = posts sampleDb.
Proof.
  intros vote. split; [reflexivity|].
  destruct (last_vote_wins decimalToNumber hexObjectId PostT alice postParam
              sampleDb 1%N (mkDoc carol 0 0) 1 0 eq_refl eq_refl eq_refl
              ltac:(cbn; lia) ltac:(cbn; lia) ltac:(decide_it)
              ltac:(decide_it)) as [_ H].
  destruct (H eq_refl) as (Hv & Hp & _). split; assumption.
Defined.

Lemma votes_in_sequence_all_count_witness :
  let db' := voteAll decimalToNumber hexObjectId PostT postParam (JNum 1)
                     [alice; bob] sampleDb in
  NoDup [alice; bob]
  ∧ findTarget PostT db' 1%N = Some (mkDoc carol 2 0)
  ∧ votes db' = [mkVote alice PostT 1%N 1; mkVote bob PostT 1%N 1].
Proof.
  intros db'. assert (Hnd : NoDup [alice; bob]) by decide_it.
  split; [exact Hnd|].
  exact (votes_in_sequence_all_count decimalToNumber hexObjectId PostT
           postParam sampleDb 1%N (mkDoc carol 0 0) [alice; bob] eq_refl
           eq_refl Hnd (λ _ _, eq_refl)).
Defined.

Lemma vote_after_delete_not_found_witness :
  let deleted := serve (deleteRoute hexObjectId PostT noFaults carol postParam)
                       threadDb in
  out_status deleted = Some 200
  ∧ serve (voteRoute decimalToNumber hexObjectId noFaults PostT
                     (mkVoteRequest alice postParam (JNum 1)))
          (out_db deleted)
    = mkOutcome (Some (reply 404 "Post not found")) (out_db deleted)
                [TargetFindById].
Proof.
  intros deleted. assert (Hs : out_status deleted = Some 200) by reflexivity.
  split; [exact Hs|].
  exact (vote_after_delete_not_found decimalToNumber hexObjectId PostT carol
           postParam threadDb alice (JNum 1) Hs eq_refl).
Defined.

Lemma deletePost_is_not_atomic_witness :
  let o := serve (deletePost hexObjectId (failAt VoteDeleteMany) carol
                             postParam) threadDb in
  failAt VoteDeleteMany TargetFindById = false
  ∧ out_status o = Some 500
  ∧ posts (out_db o) = delete 1%N (posts threadDb)
  ∧ votes (out_db o) = votes threadDb.
Proof.
  intros o. split; [reflexivity|].
  destruct (deletePost_is_not_atomic hexObjectId (failAt VoteDeleteMany) carol
              postParam threadDb 1%N (mkPost carol 1 0) eq_refl eq_refl eq_refl
              eq_refl) as (_ & Hs & Hp & _ & Hv & _).
  split; [exact Hs|]. split; [exact Hp|exact Hv].
Defined.


Lemma updateKarma_twice_is_once_witness :
  is_Some (users threadDb !! carol)
  ∧ ∃ k w1 w2,
      updateKarma noFaults carol (mkUser 0) (mkWorld threadDb None [])
      = Ret k w1
      ∧ updateKarma noFaults carol (setKarma (mkUser 0) k) w1 = Ret k w2
      ∧ w_db w2 = w_db w1.
Proof.
  assert (Hu : is_Some (users threadDb !! carol)) by (by eexists).
  split; [exact Hu|].
  exact (updateKarma_twice_is_once threadDb carol (mkUser 0) None [] Hu).
Defined.

Lemma updateKarma_without_content_is_zero_witness :
  let db := mkStore (posts threadDb) (comments threadDb) (votes threadDb)
                    (<[alice := mkUser 3]> (users threadDb)) in
  is_Some (users db !! alice)
  ∧ ∃ w', updateKarma noFaults alice (mkUser 3) (mkWorld db None [])
          = Ret 0 w'
          ∧ users (w_db w') !! alice = Some (mkUser 0).
Proof.
  intros db. assert (Hu : is_Some (users db !! alice)) by (by eexists).
  split; [exact Hu|].
  refine (proj2 (proj2 (updateKarma_without_content_is_zero db alice
                          (mkUser 3) None [] Hu _ _))).
  - intros id p Hp. subst db. unfold threadDb in Hp. cbn [posts] in Hp.
    apply lookup_singleton_Some in Hp as [_ <-]. done.
  - intros id c Hc. subst db. unfold threadDb in Hc. cbn [comments] in Hc.
    apply lookup_singleton_Some in Hc as [_ <-]. done.
Defined.

Lemma karma_lags_by_the_last_vote_witness :
  let o := serve (voteRoute decimalToNumber hexObjectId noFaults PostT
                            (mkVoteRequest alice postParam (JNum 1)))
                 sampleDb in
  out_status o = Some 200
  ∧ specKarma (out_db o) carol = 1
  ∧ users (out_db o) !! carol = Some (mkUser 0)
  ∧ ∃ id before after,
      hexObjectId postParam = Some id
      ∧ findTarget PostT sampleDb id = Some before
      ∧ findTarget PostT (out_db o) id = Some after
      ∧ (is_Some (users sampleDb !! doc_author before) →
         user_karma <$> users (out_db o) !! doc_author before
         = Some (specKarma (out_db o) (doc_author before)
                 - ((doc_upvotes after - doc_downvotes after)
                    - (doc_upvotes before - doc_downvotes before)))).
Proof.
  intros o. assert (Hs : out_status o = Some 200) by reflexivity.
  split; [exact Hs|]. split; [reflexivity|]. split; [reflexivity|].
  exact (karma_lags_by_the_last_vote decimalToNumber hexObjectId noFaults PostT
           (mkVoteRequest alice postParam (JNum 1)) sampleDb Hs).
Defined.

Lemma noop_vote_brings_karma_up_to_date_witness :
  let o := serve (voteRoute decimalToNumber hexObjectId noFaults PostT
                            (mkVoteRequest alice postParam (JNum 1)))
                 votedDb in
  users votedDb !! carol = Some (mkUser 0)
  ∧ posts (out_db o) = posts votedDb
  ∧ users (out_db o) !! carol = Some (mkUser (specKarma (out_db o) carol)).
Proof.
  intros o. split; [reflexivity|]. split; [reflexivity|].
  exact (proj2 (noop_vote_brings_karma_up_to_date decimalToNumber hexObjectId
                  PostT (mkVoteRequest alice postParam (JNum 1)) votedDb 1%N
                  (mkDoc carol 1 0) 0%nat (mkVote alice PostT 1%N 1) 1
                  (mkUser 0) eq_refl eq_refl eq_refl eq_refl
                  ltac:(decide_it) eq_refl eq_refl)).
Defined.


Lemma list_and_detail_show_same_vote_witness :
  uniqueVotes (votes threadDb)
  ∧ (2%N, 1) ∈ annotateUserVotes alice CommentT [1%N; 2%N] (votes threadDb).
Proof.
  split; [exact threadDb_unique|].
  refine (list_and_detail_show_same_vote alice CommentT [1%N; 2%N]
            (votes threadDb) 2%N threadDb_unique _).
  decide_it.
Defined.

Lemma interleaved_first_votes_count_once_witness :
  let requests := [ Waiting (mkVoteRequest alice postParam (JNum 1));
                    Waiting (mkVoteRequest bob postParam (JNum 1)) ] in
  let r := runSchedule decimalToNumber hexObjectId noFaults PostT
                       [0; 1; 0; 1]%nat requests sampleDb in
  alice ≠ bob
  ∧ forallb succeeded r.1 = true
  ∧ votes r.2 = [mkVote alice PostT 1%N 1; mkVote bob PostT 1%N 1]
  ∧ findTarget PostT r.2 1%N = Some (mkDoc carol 1 0).
Proof.
  intros requests r. assert (Hne : alice ≠ bob) by discriminate.
  split; [exact Hne|].
  destruct (interleaved_first_votes_count_once decimalToNumber hexObjectId
              PostT alice bob postParam sampleDb 1%N (mkDoc carol 0 0) eq_refl
              eq_refl Hne eq_refl eq_refl) as (Hok & Hv & Hf & _).
  split; [exact Hok|]. split; [exact Hv|exact Hf].
Defined.

Lemma interleaved_opposite_votes_both_count_witness :
  let requests := [ Waiting (mkVoteRequest alice postParam (JNum 1));
                    Waiting (mkVoteRequest bob postParam (JNum (-1))) ] in
  let r := runSchedule decimalToNumber hexObjectId noFaults PostT
                       [0; 1; 0; 1]%nat requests sampleDb in
  alice ≠ bob
  ∧ votes r.2 = [mkVote alice PostT 1%N 1; mkVote bob PostT 1%N (-1)]
  ∧ findTarget PostT r.2 1%N = Some (mkDoc carol 1 1).
Proof.
  intros requests r. assert (Hne : alice ≠ bob) by discriminate.
  split; [exact Hne|].
  destruct (interleaved_opposite_votes_both_count decimalToNumber hexObjectId
              PostT alice bob postParam sampleDb 1%N (mkDoc carol 0 0) eq_refl
              eq_refl Hne eq_refl eq_refl) as (_ & Hv & Hf).
  split; [exact Hv|exact Hf].
Defined.

(** The answer of a request whose transaction ran after another had
    committed: [alice] sends +1 and [bob] -1, both load the post before
    either transaction runs. [bob] is sent the counters computed from the
    document he had loaded, while the post holds the upvote of [alice]
    too. *)
Example interleaved_response_is_stale :
  let requests := [ Waiting (mkVoteRequest alice postParam (JNum 1));
                    Waiting (mkVoteRequest bob postParam (JNum (-1))) ] in
  let r := runSchedule decimalToNumber hexObjectId noFaults PostT
                       [0; 1; 0; 1]%nat requests sampleDb in
  r.1 !! 1%nat
  = Some (Done (Some (mkResponse 200 "Vote recorded"
                                 (Some (mkDoc carol 0 1)))))
  ∧ findTarget PostT r.2 1%N = Some (mkDoc carol 1 1).
Proof. split; reflexivity. Qed.
